(** * Actions URI: the call pipeline, note targeting and front matter splitting

  A shallow embedding of the plugin's TypeScript sources
  ([src/main.ts], [src/utils/parameters.ts],
  [src/utils/periodic-notes-handling.ts], [src/utils/string-handling.ts])
  together with the properties the specification states about them.

  Conventions.
  - JavaScript strings are [string]; the functions below only compare code
    units and count positions, so the carrier of a code unit is immaterial.
  - An optional object key is an [option]: [None] is "the key is not in the
    object" (what [key in obj] tests), [Some v] is "the key is there".
  - Calls into Obsidian, Zod and the plugin's own helper modules that have
    effects are state transformers on an abstract [World]; every such call
    is also recorded in a ghost trace of [Event]s. *)

From Stdlib Require Import String Ascii List ZArith Bool Lia DecimalString.
From Stdlib Require Import Sorted Permutation.
Import ListNotations.

Local Open Scope string_scope.
Local Open Scope Z_scope.

Set Implicit Arguments.

(* ------------------------------------------------------------------------- *)
(** * JavaScript primitives used by the sources *)

Module JS.

(** The line feed character, ["\n"] in the sources. *)
Definition LF : string := String (ascii_of_nat 10) EmptyString.

(** [s.startsWith(p)] *)
Definition startsWith (s p : string) : bool := String.prefix p s.

(** [s.indexOf(p, from)] for a non-negative [from]; [-1] when not found. *)
Definition indexOf (s p : string) (from : nat) : Z :=
  match String.index from p s with
  | Some i => Z.of_nat i
  | None => -1
  end.

(** Clamping of a relative index as [String.prototype.slice] does it:
    negative indices count from the end, everything is cut to [0..len]. *)
Definition clampIndex (len : nat) (i : Z) : nat :=
  if i <? 0 then Z.to_nat (Z.max (Z.of_nat len + i) 0)
  else Z.to_nat (Z.min i (Z.of_nat len)).

(** [s.slice(start, end)]; [finish = None] is the one-argument call. *)
Definition slice (s : string) (start : Z) (finish : option Z) : string :=
  let len := String.length s in
  let from := clampIndex len start in
  let to :=
    match finish with
    | Some e => clampIndex len e
    | None => len
    end in
  String.substring from (to - from)%nat s.

(** Truthiness of a string: only the empty string is falsy. *)
Definition truthyStr (s : string) : bool :=
  match s with
  | EmptyString => false
  | String _ _ => true
  end.

(** Truthiness of an optional string property ([undefined] is falsy). *)
Definition truthyOpt (o : option string) : bool :=
  match o with
  | Some s => truthyStr s
  | None => false
  end.

(** [if (o) ...] on an optional string property: the value when it is
    truthy, i.e. when the property is there and is not the empty string. *)
Definition truthyValue (o : option string) : option string :=
  match o with
  | Some s => if truthyStr s then Some s else None
  | None => None
  end.

(** The values a YAML front matter entry can hold. A number is carried by
    the text [`${n}`] gives for it: the sources do nothing with a number but
    coerce it to a string and test its truthiness, and the falsy numbers
    ([0], [-0], [NaN]) are exactly those printed as ["0"] and ["NaN"]. *)
#[warnings="-register-all"]
Inductive Value : Type :=
| VUndefined
| VNull
| VBool (b : bool)
| VNum (repr : string)
| VStr (s : string)
| VArr (items : list Value).

Definition truthy (v : Value) : bool :=
  match v with
  | VUndefined | VNull => false
  | VBool b => b
  | VNum r => negb ((r =? "0")%string || (r =? "NaN")%string)
  | VStr s => truthyStr s
  | VArr _ => true
  end.

(** [`${v}`], i.e. [ToString(v)]. An array prints as its elements joined by
    commas, where [null] and [undefined] elements print as nothing. *)
Fixpoint toString (v : Value) : string :=
  match v with
  | VUndefined => "undefined"
  | VNull => "null"
  | VBool true => "true"
  | VBool false => "false"
  | VNum r => r
  | VStr s => s
  | VArr items =>
      String.concat ","
        (List.map (fun x =>
                     match x with
                     | VUndefined | VNull => ""
                     | _ => toString x
                     end) items)
  end.

(** [[v].flat()]: one level of flattening of the one-element array [[v]]. *)
Definition flatSingleton (v : Value) : list Value :=
  match v with
  | VArr items => items
  | _ => [v]
  end.

(** [arr.includes(s)] on an array of strings. *)
Definition includes (arr : list string) (s : string) : bool :=
  List.existsb (fun x => (x =? s)%string) arr.

(** [arr.join(sep)] on an array of strings. *)
Definition join (sep : string) (arr : list string) : string :=
  String.concat sep arr.

End JS.

(* ------------------------------------------------------------------------- *)
(** * [src/utils/string-handling.ts] *)

Module StringHandling.

Definition FRONT_MATTER_BOUNDARY : string := "---" ++ JS.LF.

Definition containsFrontMatter (noteContent : string) : bool :=
  JS.startsWith noteContent FRONT_MATTER_BOUNDARY &&
  (JS.indexOf noteContent FRONT_MATTER_BOUNDARY 4 >? -1).

Record NoteContentParts : Type := {
  frontMatter : string;
  body : string
}.

Definition extractNoteContentParts (noteContent : string) : NoteContentParts :=
  let bodyStartPos := JS.indexOf noteContent FRONT_MATTER_BOUNDARY 4 + 4 in
  if containsFrontMatter noteContent
  then {| frontMatter := JS.slice noteContent 0 (Some bodyStartPos);
          body := JS.slice noteContent bodyStartPos None |}
  else {| frontMatter := "";
          body := noteContent |}.

End StringHandling.

(* ------------------------------------------------------------------------- *)
(** * [src/utils/results-handling.ts], [src/constants.ts] (as used) *)

Module Results.

(** Modelled from the spec: [types.ts] and [results-handling.ts], which
    declare the result objects and their constructors [success(...)] and
    [failure(...)], are not among the sources. A result is a tagged union: a
    success carries its result (the sources also build
    [{ isSuccess: true, result }] literally), a failure carries a numeric
    error code and a message, the two arguments of [failure(code, message)]. *)
Inductive ResultObject (A : Type) : Type :=
| Success (result : A)
| Failure (errorCode : Z) (errorMessage : string).

Arguments Success {A} result.
Arguments Failure {A} errorCode errorMessage.

Definition StringResultObject : Type := ResultObject string.

Definition success {A : Type} (result : A) : ResultObject A := Success result.

Definition failure {A : Type} (errorCode : Z) (errorMessage : string)
  : ResultObject A := Failure errorCode errorMessage.

Definition isSuccess {A : Type} (r : ResultObject A) : bool :=
  match r with
  | Success _ => true
  | Failure _ _ => false
  end.

(** The members of the [ErrorCode] enum that the sources below use. The enum
    is declared in [results-handling.ts]; its numeric values are taken as
    given. *)
Record ErrorCodeEnum : Type := {
  NotFound : Z;
  FeatureUnavailable : Z
}.

End Results.

Module PeriodicNoteTypes.

Inductive PeriodicNoteType : Type :=
| DailyNote
| WeeklyNote
| MonthlyNote
| QuarterlyNote
| YearlyNote.

(** The string value of each enum member. *)
Definition enumValue (t : PeriodicNoteType) : string :=
  match t with
  | DailyNote => "daily"
  | WeeklyNote => "weekly"
  | MonthlyNote => "monthly"
  | QuarterlyNote => "quarterly"
  | YearlyNote => "yearly"
  end.

End PeriodicNoteTypes.

Module Constants.
Import PeriodicNoteTypes.

(** The entries of the [STRINGS] table that the sources below read.
    [feature_not_available t] is
    [STRINGS[`${t}_note`].feature_not_available]. *)
Record StringsTable : Type := {
  faulty_note_targeting : string;
  note_not_found : string;
  feature_not_available : PeriodicNoteType -> string
}.

End Constants.

(* ------------------------------------------------------------------------- *)
(** * The parts of Obsidian and Zod the sources talk to *)

Module Obsidian.

Record TFile : Type := { path : string }.

(** A front matter object, as the list of its entries. *)
Definition FrontMatter : Type := list (string * JS.Value).

Record CachedMetadata : Type := { frontmatter : option FrontMatter }.

(** An entry of [metadataCache.fileCache]. *)
Record FileCacheEntry : Type := { hash : string }.

(** [obj[key]]: the value of the first entry under [key], else [undefined]. *)
Fixpoint getProperty (obj : FrontMatter) (key : string) : JS.Value :=
  match obj with
  | [] => JS.VUndefined
  | (k, v) :: rest => if (k =? key)%string then v else getProperty rest key
  end.

(** [cached.frontmatter?.[key]] *)
Definition frontmatterProperty (cached : CachedMetadata) (key : string) : JS.Value :=
  match frontmatter cached with
  | Some fm => getProperty fm key
  | None => JS.VUndefined
  end.

(** What [obsEnv.app] and the imported Obsidian and Zod helpers answer during
    one resolution. The two cache objects are given by their
    [Object.entries], in enumeration order. *)
Record Env : Type := {
  (** [obsEnv.app.metadataCache.metadataCache], keyed by content hash *)
  metadataCache : list (string * CachedMetadata);
  (** [obsEnv.app.metadataCache.fileCache], keyed by file path *)
  fileCache : list (string * FileCacheEntry);
  (** [obsEnv.app.vault.getMarkdownFiles()] *)
  getMarkdownFiles : list TFile;
  (** [obsEnv.app.metadataCache.getFileCache(note)] *)
  getFileCache : TFile -> option CachedMetadata;
  (** Obsidian's [parseFrontMatterEntry(frontmatter, key)] *)
  parseFrontMatterEntry : option FrontMatter -> string -> JS.Value;
  (** [zodExistingNotePath.safeParse(path).success] *)
  zodExistingNotePath : string -> bool
}.

(** What [obsidian-daily-notes-interface] answers. [getDailyNote] stands for
    the call [getDailyNote(now, getAllDailyNotes())], and likewise for the
    other granularities. *)
Record DailyNotesInterface : Type := {
  appHasDailyNotesPluginLoaded : bool;
  appHasWeeklyNotesPluginLoaded : bool;
  appHasMonthlyNotesPluginLoaded : bool;
  appHasQuarterlyNotesPluginLoaded : bool;
  appHasYearlyNotesPluginLoaded : bool;
  getDailyNote : option TFile;
  getWeeklyNote : option TFile;
  getMonthlyNote : option TFile;
  getQuarterlyNote : option TFile;
  getYearlyNote : option TFile
}.

End Obsidian.

Module Zod.

Inductive ZodIssueCode : Type :=
| custom
| other_code (name : string).

(** An element of an issue path: an object key or an array index. *)
Inductive PathSegment : Type :=
| Key (k : string)
| Index (i : N).

Definition segmentToString (seg : PathSegment) : string :=
  match seg with
  | Key k => k
  | Index i => NilZero.string_of_uint (N.to_uint i)
  end.

Record ZodIssue : Type := {
  code : ZodIssueCode;
  path : list PathSegment;
  message : string
}.

(** [ZodError.errors] *)
Definition ZodError : Type := list ZodIssue.

(** A refinement context: where in the parsed object the refinement runs, and
    the issues added so far. *)
Record RefinementCtx : Type := {
  ctxPath : list PathSegment;
  issues : list ZodIssue
}.

(** [ctx.addIssue({ code, message })] *)
Definition addIssue (c : ZodIssueCode) (msg : string) (ctx : RefinementCtx)
  : RefinementCtx :=
  {| ctxPath := ctxPath ctx;
     issues := issues ctx ++ [{| code := c; path := ctxPath ctx; message := msg |}] |}.

End Zod.

(* ------------------------------------------------------------------------- *)
(** * [src/utils/periodic-notes-handling.ts] *)

Module PeriodicNotesHandling.
Import Results PeriodicNoteTypes Constants Obsidian.

Definition getExistingPeriodNotePathIfPluginIsAvailable
  (ErrorCode : ErrorCodeEnum) (STRINGS : StringsTable)
  (dni : DailyNotesInterface) (periodicNoteType : PeriodicNoteType)
  : StringResultObject :=
  let '(pluginLoadedCheck, getCurrentPeriodNote) :=
    match periodicNoteType with
    | DailyNote => (appHasDailyNotesPluginLoaded dni, getDailyNote dni)
    | WeeklyNote => (appHasWeeklyNotesPluginLoaded dni, getWeeklyNote dni)
    | MonthlyNote => (appHasMonthlyNotesPluginLoaded dni, getMonthlyNote dni)
    | QuarterlyNote => (appHasQuarterlyNotesPluginLoaded dni, getQuarterlyNote dni)
    | YearlyNote => (appHasYearlyNotesPluginLoaded dni, getYearlyNote dni)
    end in
  if negb pluginLoadedCheck then
    failure (FeatureUnavailable ErrorCode) (feature_not_available STRINGS periodicNoteType)
  else
    match getCurrentPeriodNote with
    | Some pNote => success (path pNote)
    | None => failure (NotFound ErrorCode) (note_not_found STRINGS)
    end.

(** [parameters.ts] imports this function as
    [getPeriodNotePathIfPluginIsAvailable]. *)
Definition getPeriodNotePathIfPluginIsAvailable :=
  getExistingPeriodNotePathIfPluginIsAvailable.

Definition appHasPeriodPluginLoaded
  (dni : DailyNotesInterface) (periodicNoteType : PeriodicNoteType) : bool :=
  match periodicNoteType with
  | DailyNote => appHasDailyNotesPluginLoaded dni
  | WeeklyNote => appHasWeeklyNotesPluginLoaded dni
  | MonthlyNote => appHasMonthlyNotesPluginLoaded dni
  | QuarterlyNote => appHasQuarterlyNotesPluginLoaded dni
  | YearlyNote => appHasYearlyNotesPluginLoaded dni
  end.

End PeriodicNotesHandling.

(* ------------------------------------------------------------------------- *)
(** * [src/utils/parameters.ts] *)

Module Parameters.
Import Results PeriodicNoteTypes Constants Obsidian PeriodicNotesHandling.

(** The targeting fields of the input, as [parameters.ts] reads them. *)
Record NoteTargetingParams : Type := {
  file : option string;
  uid : option string;
  periodic_note : option PeriodicNoteType
}.

Record NoteTargetingComputedValues : Type := {
  inputKey : string;
  path : string;
  pathExists : bool
}.

(** [{ ...data, _computed: { ... } }] *)
Record WithComputed : Type := {
  data : NoteTargetingParams;
  _computed : NoteTargetingComputedValues
}.

(** [key in input] *)
Definition keyIn (key : string) (input : NoteTargetingParams) : bool :=
  if (key =? "file")%string then
    match file input with Some _ => true | None => false end
  else if (key =? "uid")%string then
    match uid input with Some _ => true | None => false end
  else if (key =? "periodic-note")%string then
    match periodic_note input with Some _ => true | None => false end
  else false.

Definition uidKey : string := "uid".

(** The test of the first [find] in [findPathForUIDInMetadataCache]. *)
Definition cachedUIDMatches (uid : string) (entry : string * CachedMetadata)
  : bool :=
  let cached := snd entry in
  JS.truthy (frontmatterProperty cached uidKey) &&
  JS.includes
    (List.map JS.toString
       (JS.flatSingleton (frontmatterProperty cached uidKey)))
    uid.

Definition findPathForUIDInMetadataCache (env : Env) (uid : string)
  : option string :=
  let hash :=
    option_map fst (List.find (cachedUIDMatches uid) (metadataCache env)) in
  let filePath :=
    option_map fst
      (List.find
         (fun entry : string * FileCacheEntry =>
            match hash with
            | Some h => (Obsidian.hash (snd entry) =? h)%string
            | None => false
            end)
         (fileCache env)) in
  filePath.

(** The test of the [find] in [findPathForUIDInMarkdownFiles]. A callback
    result that is no array is kept by [flatMap] as one element. *)
Definition noteUIDMatches (env : Env) (uid : string) (note : TFile) : bool :=
  let uidValues :=
    parseFrontMatterEntry env
      (match getFileCache env note with
       | Some cached => frontmatter cached
       | None => None
       end)
      uidKey in
  JS.includes
    (List.flat_map (fun u => [JS.toString u]) [uidValues])
    uid.

Definition findPathForUIDInMarkdownFiles (env : Env) (uid : string)
  : option string :=
  option_map Obsidian.path
    (List.find (noteUIDMatches env uid) (getMarkdownFiles env)).

Definition filepathForUID (STRINGS : StringsTable) (env : Env) (uid : string)
  : StringResultObject :=
  let path :=
    match JS.truthyValue (findPathForUIDInMetadataCache env uid) with
    | Some p => Some p
    | None => findPathForUIDInMarkdownFiles env uid
    end in
  match JS.truthyValue path with
  | Some p => success p
  | None => failure 404 (note_not_found STRINGS)
  end.

(** [res.isSuccess ? res.result : ""] *)
Definition resultOrEmpty (res : StringResultObject) : string :=
  match res with
  | Success p => p
  | Failure _ _ => ""
  end.

(** The function takes the refinement context and returns it with the issues
    it added; [None] is [z.NEVER]. *)
Definition validateNoteTargetingAndResolvePath
  (ErrorCode : ErrorCodeEnum) (STRINGS : StringsTable)
  (env : Env) (dni : DailyNotesInterface)
  (data : NoteTargetingParams) (ctx : Zod.RefinementCtx)
  (throwOnMissingNote : bool)
  : option WithComputed * Zod.RefinementCtx :=
  let input := data in
  let keysCount :=
    List.length
      (List.filter (fun key => keyIn key input) ["file"; "uid"; "periodic-note"]) in
  if negb (Nat.eqb keysCount 1) then
    (None, Zod.addIssue Zod.custom (faulty_note_targeting STRINGS) ctx)
  else
    let '(inputKey, path) :=
      match JS.truthyValue (file input) with
      | Some f => ("file", f)
      | None =>
          match JS.truthyValue (uid input) with
          | Some u => ("uid", resultOrEmpty (filepathForUID STRINGS env u))
          | None =>
              match periodic_note input with
              | Some pn =>
                  ("periodic-note",
                   resultOrEmpty
                     (getPeriodNotePathIfPluginIsAvailable ErrorCode STRINGS dni pn))
              | None => ("", "")
              end
          end
      end in
    let pathExists := negb (path =? "")%string && zodExistingNotePath env path in
    if negb pathExists && throwOnMissingNote then
      (None, Zod.addIssue Zod.custom (note_not_found STRINGS) ctx)
    else
      (Some {| data := data;
               _computed := {| inputKey := inputKey;
                               path := path;
                               pathExists := pathExists |} |},
       ctx).

Definition softValidateNoteTargetingAndResolvePath
  ErrorCode STRINGS env dni data ctx :=
  validateNoteTargetingAndResolvePath ErrorCode STRINGS env dni data ctx false.

Definition hardValidateNoteTargetingAndResolvePath
  ErrorCode STRINGS env dni data ctx :=
  validateNoteTargetingAndResolvePath ErrorCode STRINGS env dni data ctx true.

End Parameters.

(* ------------------------------------------------------------------------- *)
(** * [src/main.ts]

    The file as it stands after [handleIncomingCall] was introduced: the two
    steps after the handler take the validated parameters and return a
    [StringResultObject]. *)

Module Main.
Import Results.

(** Validated parameters of a call, with the fields [main.ts] reads: the
    two callback URLs, and [silent], which is read through a cast to [any];
    [other] holds the remaining fields. *)
Record AnyParams : Type := {
  x_success : option string;
  x_error : option string;
  silent : JS.Value;
  other : list (string * JS.Value)
}.

(** Modelled from the spec: the handler result types are declared in
    [types.ts], which is not among the sources. A handler returns a tagged
    union: a success carries a payload and, when a file was processed, the
    [processedFilepath] that [openFileIfNeeded] reads; a failure carries a
    numeric error code and a message. *)
Inductive AnyHandlerResult : Type :=
| HandlerSuccess (result : list (string * JS.Value))
                 (processedFilepath : option string)
| HandlerFailure (errorCode : Z) (errorMessage : string).

Definition handlerIsSuccess (r : AnyHandlerResult) : bool :=
  match r with
  | HandlerSuccess _ _ => true
  | HandlerFailure _ _ => false
  end.

Record ProcessingResult : Type := {
  params : AnyParams;
  handlerResult : AnyHandlerResult;
  sendCallbackResult : StringResultObject;
  openResult : StringResultObject
}.

(** The second argument of a [logToConsole] call. *)
Inductive LogData : Type :=
| LogRoutes (paths : list string)
| LogProcessingResult (res : ProcessingResult).

(** The calls a run makes to its surroundings, in the order it makes them. *)
Inductive Event : Type :=
| EvHandlerCalled (params : AnyParams)
| EvHandlerResolved (res : AnyHandlerResult)
| EvSendUrlCallback (url : string) (res : AnyHandlerResult) (params : AnyParams)
| EvFocusOrOpenNote (filepath : string)
| EvShowBrandedNotice (msg : string)
| EvLogErrorToConsole (msg : string)
| EvLogToConsole (label : string) (data : LogData).

Section Pipeline.

(** The state of Obsidian, the vault and the outside world. *)
Variable World : Type.

Record State : Type := {
  world : World;
  trace : list Event
}.

Definition M (A : Type) : Type := State -> A * State.

Definition ret {A : Type} (a : A) : M A := fun st => (a, st).

Definition bind {A B : Type} (m : M A) (k : A -> M B) : M B :=
  fun st => let '(a, st') := m st in k a st'.

(** Record a call that leaves the world as it is. *)
Definition emit (e : Event) : M unit :=
  fun st => (tt, {| world := world st; trace := trace st ++ [e] |}).

(** Record a call and let it act on the world. *)
Definition call {A : Type} (e : Event) (f : World -> A * World) : M A :=
  fun st =>
    let '(a, w) := f (world st) in
    (a, {| world := w; trace := trace st ++ [e] |}).

Definition HandlerFunction : Type := AnyParams -> World -> AnyHandlerResult * World.

(** [./utils/callbacks], [./utils/ui] and [./utils/string-handling]: the
    helpers [main.ts] imports. *)
Record Helpers : Type := {
  sendUrlCallback :
    string -> AnyHandlerResult -> AnyParams -> World -> StringResultObject * World;
  focusOrOpenNote : string -> World -> StringResultObject * World;
  showBrandedNotice : string -> World -> World;
  buildFullPath : string -> string
}.

Definition RawParameters : Type := list (string * string).

(** The outcome of [schema.safeParse(incomingParams)]. *)
Inductive SafeParseReturn : Type :=
| ParseSuccess (data : AnyParams)
| ParseFailure (error : Zod.ZodError).

(** A schema is given by its [safeParse]; its refinements may read the vault. *)
Record Route : Type := {
  path : string;
  schema : RawParameters -> World -> SafeParseReturn;
  handler : HandlerFunction
}.

Variable helpers : Helpers.

Local Notation "x <- m ;; k" := (bind m (fun x => k))
  (at level 61, m at next level, right associativity).
Local Notation "m ;;; k" := (bind m (fun _ => k))
  (at level 61, right associativity).

(** A callback sent to [url] with the handler's result: the helper's answer,
    the world it leaves, and the call added to the trace. *)
Definition sent (url : string) (hr : AnyHandlerResult) (p : AnyParams)
  (st : State) : StringResultObject * State :=
  (fst (sendUrlCallback helpers url hr p (world st)),
   {| world := snd (sendUrlCallback helpers url hr p (world st));
      trace := trace st ++ [EvSendUrlCallback url hr p] |}).

(** The note at [filepath] brought into focus. *)
Definition focused (filepath : string) (st : State)
  : StringResultObject * State :=
  (fst (focusOrOpenNote helpers filepath (world st)),
   {| world := snd (focusOrOpenNote helpers filepath (world st));
      trace := trace st ++ [EvFocusOrOpenNote filepath] |}).

Definition sendUrlCallbackIfNeeded
  (handlerRes : AnyHandlerResult) (params : AnyParams) : M StringResultObject :=
  if handlerIsSuccess handlerRes then
    match JS.truthyValue (x_success params) with
    | Some url =>
        call (EvSendUrlCallback url handlerRes params)
             (sendUrlCallback helpers url handlerRes params)
    | None => ret (Success "No `x-success` callback URL provided")
    end
  else
    match JS.truthyValue (x_error params) with
    | Some url =>
        call (EvSendUrlCallback url handlerRes params)
             (sendUrlCallback helpers url handlerRes params)
    | None => ret (Success "No `x-error` callback URL provided")
    end.

Definition openFileIfNeeded
  (handlerResult : AnyHandlerResult) (params : AnyParams) : M StringResultObject :=
  match handlerResult with
  | HandlerFailure _ _ => ret (Success "No file to open, the handler failed")
  | HandlerSuccess _ processedFilepath =>
      if JS.truthy (silent params) then
        ret (Success "No file to open, the `silent` parameter was set")
      else
        match JS.truthyValue processedFilepath with
        | None =>
            ret (Success
                   "No file to open, handler didn't return a `processedFilepath` property")
        | Some filepath =>
            call (EvFocusOrOpenNote filepath) (focusOrOpenNote helpers filepath)
        end
  end.

(** [await handlerFunc(params)]: the call, and the moment its promise
    resolves with the handler's result. *)
Definition awaitHandler (handlerFunc : HandlerFunction) (params : AnyParams)
  : M AnyHandlerResult :=
  emit (EvHandlerCalled params) ;;;
  fun st =>
    let '(r, w) := handlerFunc params (world st) in
    (r, {| world := w; trace := trace st ++ [EvHandlerResolved r] |}).

Definition handleIncomingCall
  (handlerFunc : HandlerFunction) (params : AnyParams) : M ProcessingResult :=
  handlerResult <- awaitHandler handlerFunc params ;;
  sendCallbackResult <- sendUrlCallbackIfNeeded handlerResult params ;;
  openResult <- openFileIfNeeded handlerResult params ;;
  let res := {| params := params;
                handlerResult := handlerResult;
                sendCallbackResult := sendCallbackResult;
                openResult := openResult |} in
  emit (EvLogToConsole "Call handled:" (LogProcessingResult res)) ;;;
  ret res.

(** [`- ${error.path.join(".")}: ${error.message}`] *)
Definition errorLine (error : Zod.ZodIssue) : string :=
  "- " ++ JS.join "." (List.map Zod.segmentToString (Zod.path error))
       ++ ": " ++ Zod.message error.

Definition parseErrorMessage (parseError : Zod.ZodError) : string :=
  JS.join JS.LF ("Incoming call failed" :: List.map errorLine parseError).

Definition handleParseError (parseError : Zod.ZodError) : M unit :=
  let msg := parseErrorMessage parseError in
  call (EvShowBrandedNotice msg)
       (fun w => (tt, showBrandedNotice helpers msg w)) ;;;
  emit (EvLogErrorToConsole msg).

(** The callback [registerRoutes] registers for a route. *)
Definition protocolHandler (route : Route) (incomingParams : RawParameters)
  : M unit :=
  fun st =>
    match schema route incomingParams (world st) with
    | ParseSuccess data =>
        (handleIncomingCall (handler route) data ;;; ret tt) st
    | ParseFailure error => handleParseError error st
    end.

(** The result is the list of the registrations made with
    [registerObsidianProtocolHandler]. *)
Definition registerRoutes (routes : list Route)
  : M (list (string * (RawParameters -> M unit))) :=
  let registered :=
    List.map
      (fun route => (buildFullPath helpers (path route), protocolHandler route))
      routes in
  emit (EvLogToConsole "Registered URI handlers:"
          (LogRoutes (List.map fst registered))) ;;;
  ret registered.

End Pipeline.

Arguments world {World} _.
Arguments trace {World} _.

End Main.

(* ------------------------------------------------------------------------- *)
(** * Counting targeting keys *)

Module TargetingKeys.
Import Parameters.

Definition isSome {A : Type} (o : option A) : bool :=
  match o with
  | Some _ => true
  | None => false
  end.

(** The number of targeting keys that are in the input, empty or not. *)
Definition keysPresent (input : NoteTargetingParams) : nat :=
  ((if isSome (file input) then 1 else 0) +
   (if isSome (uid input) then 1 else 0) +
   (if isSome (periodic_note input) then 1 else 0))%nat.

(** The number of targeting keys that are in the input with a non-empty
    value (a periodic note type is never empty). *)
Definition keysPresentAndNonEmpty (input : NoteTargetingParams) : nat :=
  ((if JS.truthyOpt (file input) then 1 else 0) +
   (if JS.truthyOpt (uid input) then 1 else 0) +
   (if isSome (periodic_note input) then 1 else 0))%nat.

(** The specification's notion of a note matching a uid: the note's front
    matter has a [uid] entry, scalar or list, one of whose values is, coerced
    to a string, exactly the uid. *)
Definition specUIDMatches (fm : option Obsidian.FrontMatter) (uid : string)
  : bool :=
  match fm with
  | Some entries =>
      JS.includes
        (List.map JS.toString
           (JS.flatSingleton (Obsidian.getProperty entries uidKey)))
        uid
  | None => false
  end.

End TargetingKeys.

(* ------------------------------------------------------------------------- *)
(** * Sample surroundings for the closed examples *)

Module Samples.
Import Results PeriodicNoteTypes Constants Obsidian Parameters.

Definition sampleErrorCode : ErrorCodeEnum :=
  {| NotFound := 404; FeatureUnavailable := 424 |}.

Definition sampleStrings : StringsTable :=
  {| faulty_note_targeting := "faulty note targeting";
     note_not_found := "note not found";
     feature_not_available := fun t => (enumValue t ++ " notes are not enabled")%string |}.

(** Obsidian's lookup of a front matter entry by its exact key. *)
Definition sampleParseFrontMatterEntry (fm : option FrontMatter) (key : string)
  : JS.Value :=
  match fm with
  | Some entries =>
      match getProperty entries key with
      | JS.VUndefined => JS.VNull
      | v => v
      end
  | None => JS.VNull
  end.

(** A vault whose notes carry the given front matter; the caches agree with
    it: note number [i] has content hash ["h<i>"]. *)
Definition vaultOf (notes : list (string * option FrontMatter)) : Env :=
  let hashed :=
    List.combine
      (List.map (fun i => ("h" ++ NilZero.string_of_uint (Nat.to_uint i))%string)
                (List.seq 0 (List.length notes)))
      notes in
  {| metadataCache :=
       List.map (fun e => (fst e, {| frontmatter := snd (snd e) |})) hashed;
     fileCache :=
       List.map (fun e => (fst (snd e), {| hash := fst e |})) hashed;
     getMarkdownFiles :=
       List.map (fun n => {| Obsidian.path := fst n |}) notes;
     getFileCache := fun f =>
       option_map (fun n => {| frontmatter := snd n |})
         (List.find (fun n => (fst n =? Obsidian.path f)%string) notes);
     parseFrontMatterEntry := sampleParseFrontMatterEntry;
     zodExistingNotePath := fun p =>
       List.existsb (fun n => (fst n =? p)%string) notes |}.

Definition emptyVault : Env := vaultOf [].

(** The same vault before the metadata index has been filled. *)
Definition withEmptyIndex (env : Env) : Env :=
  {| metadataCache := [];
     fileCache := [];
     getMarkdownFiles := getMarkdownFiles env;
     getFileCache := getFileCache env;
     parseFrontMatterEntry := parseFrontMatterEntry env;
     zodExistingNotePath := zodExistingNotePath env |}.

Definition listUIDNote : string * option FrontMatter :=
  ("n.md", Some [("uid", JS.VArr [JS.VStr "a"; JS.VStr "b"])]).

Definition plainNote : string * option FrontMatter :=
  ("plain.md", Some [("title", JS.VStr "no uid here")]).

Definition scalarUIDNote : string * option FrontMatter :=
  ("x.md", Some [("uid", JS.VStr "xyz")]).

Definition noPeriodicNotes : DailyNotesInterface :=
  {| appHasDailyNotesPluginLoaded := false;
     appHasWeeklyNotesPluginLoaded := false;
     appHasMonthlyNotesPluginLoaded := false;
     appHasQuarterlyNotesPluginLoaded := false;
     appHasYearlyNotesPluginLoaded := false;
     getDailyNote := None;
     getWeeklyNote := None;
     getMonthlyNote := None;
     getQuarterlyNote := None;
     getYearlyNote := None |}.

Definition emptyCtx : Zod.RefinementCtx := {| Zod.ctxPath := []; Zod.issues := [] |}.

(** A world that only remembers which URLs were called and which notes were
    brought into focus. *)
Record SampleWorld : Type := {
  calledUrls : list string;
  focusedNotes : list string;
  notices : list string
}.

Definition freshWorld : SampleWorld :=
  {| calledUrls := []; focusedNotes := []; notices := [] |}.

Definition sampleHelpers : Main.Helpers SampleWorld :=
  {| Main.sendUrlCallback := fun url _ _ w =>
       (Success "Callback sent",
        {| calledUrls := calledUrls w ++ [url];
           focusedNotes := focusedNotes w;
           notices := notices w |});
     Main.focusOrOpenNote := fun p w =>
       (Success "Note opened",
        {| calledUrls := calledUrls w;
           focusedNotes := focusedNotes w ++ [p];
           notices := notices w |});
     Main.showBrandedNotice := fun msg w =>
       {| calledUrls := calledUrls w;
          focusedNotes := focusedNotes w;
          notices := notices w ++ [msg] |};
     Main.buildFullPath := fun p => ("actions-uri/" ++ p)%string |}.

Definition freshState : Main.State SampleWorld :=
  {| Main.world := freshWorld; Main.trace := [] |}.

Definition sampleParams : Main.AnyParams :=
  {| Main.x_success := Some "app://done";
     Main.x_error := Some "app://failed";
     Main.silent := JS.VBool true;
     Main.other := [("file", JS.VStr "a.md")] |}.

Definition bareParams : Main.AnyParams :=
  {| Main.x_success := None;
     Main.x_error := None;
     Main.silent := JS.VUndefined;
     Main.other := [("file", JS.VStr "a.md")] |}.

(** Both callback keys are there, with empty values. *)
Definition emptyUrlParams : Main.AnyParams :=
  {| Main.x_success := Some "";
     Main.x_error := Some "";
     Main.silent := JS.VUndefined;
     Main.other := [("file", JS.VStr "a.md")] |}.

(** A handler that reports the note it worked on. *)
Definition sampleHandler : Main.HandlerFunction SampleWorld :=
  fun _ w => (Main.HandlerSuccess [("message", JS.VStr "done")] (Some "a.md"), w).

Definition sampleIssues : Zod.ZodError :=
  [ {| Zod.code := Zod.other_code "invalid_type";
       Zod.path := [Zod.Key "vault"];
       Zod.message := "Required" |};
    {| Zod.code := Zod.other_code "invalid_string";
       Zod.path := [Zod.Key "x-success"];
       Zod.message := "Invalid url" |} ].

(** A route whose schema rejects every call with [sampleIssues]. *)
Definition rejectingRoute : Main.Route SampleWorld :=
  {| Main.path := "note/get";
     Main.schema := fun _ _ => Main.ParseFailure sampleIssues;
     Main.handler := sampleHandler |}.

End Samples.

(* ------------------------------------------------------------------------- *)
(** * More JavaScript primitives *)

Module JSMore.

(** [s.endsWith(p)] *)
Definition endsWith (s p : string) : bool :=
  (String.length p <=? String.length s)%nat &&
  (String.substring (String.length s - String.length p) (String.length p) s
   =? p)%string.

(** The scan behind [s.lastIndexOf(p)]: [pos] is the position of the first
    character of [s] in the whole string, [found] the last match seen before. *)
Fixpoint lastIndexFrom (s p : string) (pos : nat) (found : Z) : Z :=
  let found' := if String.prefix p s then Z.of_nat pos else found in
  match s with
  | EmptyString => found'
  | String _ rest => lastIndexFrom rest p (S pos) found'
  end.

(** [s.lastIndexOf(p)]; [-1] when [p] does not occur. *)
Definition lastIndexOf (s p : string) : Z := lastIndexFrom s p 0 (-1).

(** [s.replace(/^p/, "")] for a literal text [p]. *)
Definition removeAtStart (s p : string) : string :=
  if JS.startsWith s p then JS.slice s (Z.of_nat (String.length p)) None else s.

(** [s.replace(/p$/, "")] for a literal text [p]. *)
Definition removeAtEnd (s p : string) : string :=
  if endsWith s p
  then JS.slice s 0 (Some (Z.of_nat (String.length s - String.length p)))
  else s.

End JSMore.

(* ------------------------------------------------------------------------- *)
(** * [src/utils/string-handling.ts], the remaining functions *)

Module StringHandlingMore.
Import StringHandling.

(** [str] is [None] when the argument is left out; it then defaults to the
    empty string. *)
Definition ensureNewline (str : option string) : string :=
  let str := match str with Some s => s | None => "" end in
  if JSMore.endsWith str JS.LF then str else (str ++ JS.LF)%string.

Definition unwrapFrontMatter (frontMatter : string) : string :=
  JSMore.removeAtEnd
    (JSMore.removeAtStart frontMatter FRONT_MATTER_BOUNDARY)
    FRONT_MATTER_BOUNDARY.

(** The three [STRINGS] entries [parseStringIntoRegex] reads. *)
Record SearchStrings : Type := {
  search_pattern_invalid : string;
  search_pattern_empty : string;
  search_pattern_unparseable : string
}.

(** [{ isSuccess: true, result }] or [{ isSuccess: false, error }]. *)
Inductive RegexResultObject (R : Type) : Type :=
| RegexSuccess (result : R)
| RegexFailure (error : string).

Arguments RegexSuccess {R} result.
Arguments RegexFailure {R} error.

(** [newRegExp re flags] is [new RegExp(re, flags)]; [None] when the
    constructor throws. *)
Definition parseStringIntoRegex {R : Type}
  (STRINGS : SearchStrings) (newRegExp : string -> string -> option R)
  (search : string) : RegexResultObject R :=
  if negb (JS.startsWith search "/") then
    RegexFailure (search_pattern_invalid STRINGS)
  else
    let re := JS.slice search 1 None in
    let lastSlashIdx := JSMore.lastIndexOf re "/" in
    if lastSlashIdx =? 0 then
      RegexFailure (search_pattern_empty STRINGS)
    else
      let flags := JS.slice re (lastSlashIdx + 1) None in
      let re := JS.slice re 0 (Some lastSlashIdx) in
      match newRegExp re flags with
      | None => RegexFailure (search_pattern_unparseable STRINGS)
      | Some searchPattern => RegexSuccess searchPattern
      end.

End StringHandlingMore.

(* ------------------------------------------------------------------------- *)
(** * The UTF-16 code units of a string

    [sort()] orders strings by their UTF-16 code units. That order is not the
    order of the bytes of the same text in UTF-8: a character above U+FFFF
    is two code units from D800..DFFF and so comes before the characters
    E000..FFFF, while its bytes come after theirs. Where the order matters, a
    [string] is therefore read as UTF-8 text and turned into its code
    units. *)

Module UTF16.

(** The code units of one code point: itself, or a surrogate pair. *)
Definition unitsOfCodePoint (cp : N) : list N :=
  if (cp <? 65536)%N then [cp]
  else [(55296 + N.shiftr (cp - 65536) 10)%N;
        (56320 + N.land (cp - 65536) 1023)%N].

(** U+FFFD, which stands in for bytes that are no UTF-8. *)
Definition replacement : N := 65533%N.

(** A byte at the start of a character: the code units it gives at once, the
    bits it brings, and how many continuation bytes are to follow. *)
Definition startByte (b : N) : list N * N * nat :=
  if (b <? 128)%N then ([b], 0%N, 0%nat)
  else if (b <? 192)%N then ([replacement], 0%N, 0%nat)
  else if (b <? 224)%N then ([], N.land b 31, 1%nat)
  else if (b <? 240)%N then ([], N.land b 15, 2%nat)
  else if (b <? 248)%N then ([], N.land b 7, 3%nat)
  else ([replacement], 0%N, 0%nat).

(** Decoding with [need] continuation bytes still to come for the character
    whose bits so far are [acc]. *)
Fixpoint decodeFrom (s : string) (acc : N) (need : nat) : list N :=
  match s with
  | EmptyString =>
      match need with
      | O => []
      | S _ => [replacement]
      end
  | String c rest =>
      let b := N_of_ascii c in
      match need with
      | O =>
          let '(out, acc', need') := startByte b in
          out ++ decodeFrom rest acc' need'
      | S need' =>
          if ((128 <=? b) && (b <? 192))%N then
            let acc' := (acc * 64 + N.land b 63)%N in
            match need' with
            | O => unitsOfCodePoint acc' ++ decodeFrom rest 0%N 0%nat
            | S _ => decodeFrom rest acc' need'
            end
          else
            let '(out, acc', need'') := startByte b in
            replacement :: out ++ decodeFrom rest acc' need''
      end
  end.

(** The UTF-16 code units of the text whose UTF-8 bytes are [s]. *)
Definition codeUnits (s : string) : list N := decodeFrom s 0%N 0%nat.

(** Comparing two sequences of code units, unit by unit. *)
Fixpoint compareUnits (a b : list N) : comparison :=
  match a, b with
  | [], [] => Eq
  | [], _ :: _ => Lt
  | _ :: _, [] => Gt
  | x :: a', y :: b' =>
      match N.compare x y with
      | Eq => compareUnits a' b'
      | c => c
      end
  end.

(** [a <= b] for two strings, as [sort()] compares them. *)
Definition leb (a b : string) : bool :=
  match compareUnits (codeUnits a) (codeUnits b) with
  | Gt => false
  | _ => true
  end.

End UTF16.

(* ------------------------------------------------------------------------- *)
(** * Arrays of strings: [sort()] and [last()] *)

Module JSArray.

(** [a] is not above [b] in the order of [sort()]. *)
Definition leS (a b : string) : Prop := UTF16.leb a b = true.

(** Put [x] before the first element that is not below it. *)
Fixpoint insertSorted (x : string) (arr : list string) : list string :=
  match arr with
  | [] => [x]
  | y :: rest =>
      if UTF16.leb x y then x :: arr else y :: insertSorted x rest
  end.

(** [arr.sort()] without a compare function: the elements in ascending order
    of their UTF-16 code units. Two strings that compare equal are the same
    text, so the order of the result does not depend on the sorting method;
    the one taken here is insertion. *)
Definition sort (arr : list string) : list string :=
  List.fold_right insertSorted [] arr.

(** Obsidian's [arr.last()]: the last element, [undefined] on an empty array. *)
Fixpoint last (arr : list string) : option string :=
  match arr with
  | [] => None
  | [x] => Some x
  | _ :: rest => last rest
  end.

End JSArray.

(* ------------------------------------------------------------------------- *)
(** * [src/utils/periodic-notes-handling.ts], the remaining lookups *)

Module PeriodicNotesMore.
Import Results PeriodicNoteTypes Constants Obsidian PeriodicNotesHandling.

(** What [getAllDailyNotes()] and its siblings return: an object from date
    keys to notes, given by its entries in the order [Object.keys] lists
    them. *)
Record AllNotesInterface : Type := {
  getAllDailyNotes : list (string * TFile);
  getAllWeeklyNotes : list (string * TFile);
  getAllMonthlyNotes : list (string * TFile);
  getAllQuarterlyNotes : list (string * TFile);
  getAllYearlyNotes : list (string * TFile)
}.

Definition getCurrentPeriodNote
  (dni : DailyNotesInterface) (periodicNoteType : PeriodicNoteType)
  : option TFile :=
  match periodicNoteType with
  | DailyNote => getDailyNote dni
  | WeeklyNote => getWeeklyNote dni
  | MonthlyNote => getMonthlyNote dni
  | QuarterlyNote => getQuarterlyNote dni
  | YearlyNote => getYearlyNote dni
  end.

Definition getAllPeriodNotes
  (ani : AllNotesInterface) (periodicNoteType : PeriodicNoteType)
  : list (string * TFile) :=
  match periodicNoteType with
  | DailyNote => getAllDailyNotes ani
  | WeeklyNote => getAllWeeklyNotes ani
  | MonthlyNote => getAllMonthlyNotes ani
  | QuarterlyNote => getAllQuarterlyNotes ani
  | YearlyNote => getAllYearlyNotes ani
  end.

(** [notes[key]] *)
Fixpoint noteUnderKey (notes : list (string * TFile)) (key : string)
  : option TFile :=
  match notes with
  | [] => None
  | (k, note) :: rest =>
      if (k =? key)%string then Some note else noteUnderKey rest key
  end.

(** [getNote] is the helper of [file-handling.ts] that fetches the note at a
    path. The outer [None] stands for the [TypeError] that reading [.path] of
    an [undefined] note would throw. *)
Definition getMostRecentPeriodNote
  (ErrorCode : ErrorCodeEnum) (STRINGS : StringsTable)
  (dni : DailyNotesInterface) (ani : AllNotesInterface)
  (getNote : string -> ResultObject TFile)
  (periodicNoteType : PeriodicNoteType)
  : option (ResultObject TFile) :=
  if negb (appHasPeriodPluginLoaded dni periodicNoteType) then
    Some (failure (FeatureUnavailable ErrorCode)
            (feature_not_available STRINGS periodicNoteType))
  else
    let notes := getAllPeriodNotes ani periodicNoteType in
    let mostRecentKey := JSArray.last (JSArray.sort (List.map fst notes)) in
    match JS.truthyValue mostRecentKey with
    | None => Some (failure 404 (note_not_found STRINGS))
    | Some key =>
        match noteUnderKey notes key with
        | Some pNote => Some (getNote (path pNote))
        | None => None
        end
    end.

End PeriodicNotesMore.

(* ------------------------------------------------------------------------- *)
(** * The vault routes ([handleInfo] and the three listings) *)

Module VaultRoutes.
Import Results Obsidian.

(** A file or a folder of the vault, as [getFileMap()] lists them. *)
Inductive TAbstractFile : Type :=
| AFile (path : string)
| AFolder (path : string).

Definition abstractPath (t : TAbstractFile) : string :=
  match t with
  | AFile p => p
  | AFolder p => p
  end.

(** [t instanceof TFolder] *)
Definition isTFolder (t : TAbstractFile) : bool :=
  match t with
  | AFile _ => false
  | AFolder _ => true
  end.

(** [vault.config]; a setting that is not there prints as ["undefined"]. *)
Record VaultConfig : Type := {
  attachmentFolderPath : option string;
  newFileLocation : option string;
  newFileFolderPath : option string
}.

Record VaultEnv : Type := {
  (** [(<RealLifeVault> vault).config] *)
  config : option VaultConfig;
  (** [(<RealLifeDataAdapter> vault.adapter).basePath] *)
  basePath : option string;
  (** [vault.getFiles()] *)
  getFiles : list TFile;
  (** [vault.getMarkdownFiles()] *)
  getMarkdownFiles : list TFile;
  (** [getFileMap()] of [file-handling.ts] *)
  getFileMap : list TAbstractFile
}.

(** [`${v}`] for an optional string. *)
Definition printed (v : option string) : string :=
  match v with
  | Some s => s
  | None => "undefined"
  end.

(** The payload of [handleInfo]'s success; its fields are [basePath],
    [attachmentFolderPath] and [newFileFolderPath]. *)
Record VaultInfo : Type := {
  info_basePath : string;
  info_attachmentFolderPath : string;
  info_newFileFolderPath : string
}.

Definition handleInfo (vault_internals_not_found : string) (env : VaultEnv)
  : ResultObject VaultInfo :=
  match config env, JS.truthyValue (basePath env) with
  | Some config, Some basePath =>
      success
        {| info_basePath := basePath;
           info_attachmentFolderPath :=
             JSMore.removeAtEnd
               (basePath ++ "/" ++ printed (attachmentFolderPath config)) "/";
           info_newFileFolderPath :=
             if match newFileLocation config with
                | Some location => (location =? "folder")%string
                | None => false
                end
             then
               JSMore.removeAtEnd
                 (basePath ++ "/" ++ printed (newFileFolderPath config)) "/"
             else basePath |}
  | _, _ => failure 412 vault_internals_not_found
  end.

(** The three listings return a success whose payload is its [paths]; none
    of them reads its parameters. *)
Definition handleListFolders (env : VaultEnv) : ResultObject (list string) :=
  let paths :=
    JSArray.sort
      (List.map
         (fun t =>
            if JSMore.endsWith (abstractPath t) "/"
            then abstractPath t
            else (abstractPath t ++ "/")%string)
         (List.filter isTFolder (getFileMap env))) in
  success paths.

Definition handleListFiles (env : VaultEnv) : ResultObject (list string) :=
  success (JSArray.sort (List.map Obsidian.path (getFiles env))).

Definition handleListFilesExceptNotes (env : VaultEnv)
  : ResultObject (list string) :=
  let files := List.map Obsidian.path (getFiles env) in
  let notes := List.map Obsidian.path (getMarkdownFiles env) in
  success
    (JSArray.sort
       (List.filter (fun path => negb (JS.includes notes path)) files)).

End VaultRoutes.

(* ------------------------------------------------------------------------- *)
(** * [src/main.ts], the earlier version

    The file as it stood before [handleIncomingCall]: the two steps after the
    handler take only the handler's result, which carries the validated
    parameters of the call as its [input], and return nothing. *)

Module MainEarlier.
Import Results Main.

Record HandlerResult : Type := {
  outcome : AnyHandlerResult;
  input : AnyParams
}.

(** [(<HandlerFileSuccess> handlerResult).processedFilepath] *)
Definition processedFilepathOf (r : AnyHandlerResult) : option string :=
  match r with
  | HandlerSuccess _ processedFilepath => processedFilepath
  | HandlerFailure _ _ => None
  end.

Inductive Event : Type :=
| EvSendUrlCallback (url : string) (res : HandlerResult)
| EvFocusOrOpenNote (filepath : string)
| EvShowBrandedNotice (msg : string)
| EvConsoleLog (msg : string)
| EvConsoleError (msg : string).

Section Pipeline.

Variable World : Type.

Record State : Type := {
  world : World;
  trace : list Event
}.

(** Record a call and let it act on the world. *)
Definition call (e : Event) (f : World -> World) (st : State) : State :=
  {| world := f (world st); trace := trace st ++ [e] |}.

(** The helpers of [./utils/callbacks] and [./utils/ui]; what they return is
    not looked at. *)
Record Helpers : Type := {
  sendUrlCallback : string -> HandlerResult -> World -> World;
  focusOrOpenNote : string -> World -> World;
  showBrandedNotice : string -> World -> World
}.

Variable helpers : Helpers.

Definition sendUrlCallbackIfNeeded (handlerRes : HandlerResult) (st : State)
  : State :=
  let isSuccess := handlerIsSuccess (outcome handlerRes) in
  let input := input handlerRes in
  if negb (JS.truthyOpt (x_success input)) && negb (JS.truthyOpt (x_error input))
  then call (EvConsoleLog "No callbacks specified") (fun w => w) st
  else if isSuccess then
    match JS.truthyValue (x_success input) with
    | Some url =>
        call (EvSendUrlCallback url handlerRes)
             (sendUrlCallback helpers url handlerRes) st
    | None => st
    end
  else
    match JS.truthyValue (x_error input) with
    | Some url =>
        call (EvSendUrlCallback url handlerRes)
             (sendUrlCallback helpers url handlerRes) st
    | None => st
    end.

Definition openFileIfNeeded (handlerResult : HandlerResult) (st : State)
  : State :=
  if negb (handlerIsSuccess (outcome handlerResult))
     || JS.truthy (silent (input handlerResult))
  then st
  else
    match JS.truthyValue (processedFilepathOf (outcome handlerResult)) with
    | None => st
    | Some processedFilepath =>
        call (EvFocusOrOpenNote processedFilepath)
             (focusOrOpenNote helpers processedFilepath) st
    end.

Definition handleParseError (parseError : Zod.ZodError) (st : State) : State :=
  let msg := parseErrorMessage parseError in
  call (EvShowBrandedNotice msg) (showBrandedNotice helpers msg)
    (call (EvConsoleError msg) (fun w => w) st).

End Pipeline.

Arguments world {World} _.
Arguments trace {World} _.

(** The callbacks a trace of the earlier version holds: URL, handler
    outcome and parameters of each. *)
Definition callbacksSent (events : list Event)
  : list (string * AnyHandlerResult * AnyParams) :=
  List.flat_map
    (fun e =>
       match e with
       | EvSendUrlCallback url res => [(url, outcome res, input res)]
       | _ => []
       end)
    events.

(** The notes a trace of the earlier version opens. *)
Definition notesOpened (events : list Event) : list string :=
  List.flat_map
    (fun e => match e with EvFocusOrOpenNote p => [p] | _ => [] end)
    events.

(** The same two readings of a trace of the later version. *)
Definition laterCallbacksSent (events : list Main.Event)
  : list (string * AnyHandlerResult * AnyParams) :=
  List.flat_map
    (fun e =>
       match e with
       | Main.EvSendUrlCallback url res params => [(url, res, params)]
       | _ => []
       end)
    events.

Definition laterNotesOpened (events : list Main.Event) : list string :=
  List.flat_map
    (fun e => match e with Main.EvFocusOrOpenNote p => [p] | _ => [] end)
    events.

End MainEarlier.

(* ------------------------------------------------------------------------- *)
(** * Sample periodic notes *)

Module PeriodicSamples.
Import Results Obsidian PeriodicNotesMore.

(** Daily and weekly notes are switched on; there is no current note. *)
Definition dailyAndWeeklyLoaded : DailyNotesInterface :=
  {| appHasDailyNotesPluginLoaded := true;
     appHasWeeklyNotesPluginLoaded := true;
     appHasMonthlyNotesPluginLoaded := false;
     appHasQuarterlyNotesPluginLoaded := false;
     appHasYearlyNotesPluginLoaded := false;
     getDailyNote := None;
     getWeeklyNote := None;
     getMonthlyNote := None;
     getQuarterlyNote := None;
     getYearlyNote := None |}.

(** Three daily notes, not listed in the order of their keys, and no others. *)
Definition threeDailyNotes : AllNotesInterface :=
  {| getAllDailyNotes :=
       [("day-2024-01-09", {| Obsidian.path := "daily/2024-01-09.md" |});
        ("day-2024-01-10", {| Obsidian.path := "daily/2024-01-10.md" |});
        ("day-2023-12-31", {| Obsidian.path := "daily/2023-12-31.md" |})];
     getAllWeeklyNotes := [];
     getAllMonthlyNotes := [];
     getAllQuarterlyNotes := [];
     getAllYearlyNotes := [] |}.

(** A [getNote] that finds every note it is asked for. *)
Definition everyNoteThere (filepath : string) : ResultObject TFile :=
  Success {| Obsidian.path := filepath |}.

End PeriodicSamples.

(* ========================================================================= *)
(** * Properties *)

(** ** Strings *)

Section StringFacts.

Lemma substring_split (s : string) (n : nat) :
  (String.substring 0 n s ++ String.substring n (String.length s - n) s)%string = s.
Proof.
  revert n; induction s as [|c s IH]; intros [|n]; simpl; auto.
  - f_equal. clear IH. induction s as [|d s IH]; simpl; auto. now f_equal.
  - f_equal. apply IH.
Qed.

Lemma substring_prefix_length (s : string) (n : nat) :
  String.length (String.substring 0 n s) = Nat.min n (String.length s).
Proof.
  revert n; induction s as [|c s IH]; intros [|n]; simpl; auto.
Qed.

Lemma clampIndex_nonneg (len : nat) (i : Z) :
  0 <= i -> JS.clampIndex len i = Nat.min (Z.to_nat i) len.
Proof.
  intros Hi. unfold JS.clampIndex.
  destruct (Z.ltb_spec i 0); lia.
Qed.

(** Cutting a string at any non-negative position loses nothing. *)
Lemma slice_split (s : string) (b : Z) :
  0 <= b -> (JS.slice s 0 (Some b) ++ JS.slice s b None)%string = s.
Proof.
  intros Hb. unfold JS.slice.
  rewrite (clampIndex_nonneg _ Hb), (clampIndex_nonneg _ (Z.le_refl 0)).
  simpl. rewrite Nat.sub_0_r.
  apply substring_split.
Qed.

Lemma slice_prefix_length (s : string) (b : Z) :
  0 <= b ->
  String.length (JS.slice s 0 (Some b)) = Nat.min (Z.to_nat b) (String.length s).
Proof.
  intros Hb. unfold JS.slice.
  rewrite (clampIndex_nonneg _ Hb), (clampIndex_nonneg _ (Z.le_refl 0)).
  simpl. rewrite Nat.sub_0_r, substring_prefix_length. lia.
Qed.

Lemma startsWith_length (s p : string) :
  JS.startsWith s p = true -> (String.length p <= String.length s)%nat.
Proof.
  unfold JS.startsWith. intros H.
  apply String.prefix_correct in H.
  rewrite <- H at 1. rewrite substring_prefix_length. lia.
Qed.

Lemma indexOf_lower_bound (s p : string) (from : nat) :
  -1 <= JS.indexOf s p from.
Proof.
  unfold JS.indexOf. destruct (String.index from p s); lia.
Qed.

End StringFacts.

(** ** Front matter splitting *)

Module StringHandlingFacts.
Import StringHandling.

Example extract_with_front_matter :
  extractNoteContentParts
    ("---" ++ JS.LF ++ "a: 1" ++ JS.LF ++ "---" ++ JS.LF ++ "text")
  = {| frontMatter := "---" ++ JS.LF ++ "a: 1" ++ JS.LF ++ "---" ++ JS.LF;
       body := "text" |}.
Proof. reflexivity. Qed.

Example extract_without_front_matter :
  extractNoteContentParts ("---" ++ JS.LF ++ "text")
  = {| frontMatter := ""; body := "---" ++ JS.LF ++ "text" |}.
Proof. reflexivity. Qed.

(** C10. [extractNoteContentParts] splits its input without loss: the
    front matter followed by the body is the input again, and the front
    matter is empty exactly when [containsFrontMatter] says there is none. *)
Theorem extractNoteContentParts_lossless (s : string) :
  let parts := extractNoteContentParts s in
  (frontMatter parts ++ body parts)%string = s /\
  (frontMatter parts = "" <-> containsFrontMatter s = false).
Proof.
  cbv zeta. unfold extractNoteContentParts.
  destruct (containsFrontMatter s) eqn:Hc; simpl.
  - pose proof (indexOf_lower_bound s FRONT_MATTER_BOUNDARY 4) as Hlo.
    apply andb_true_iff in Hc. destruct Hc as [Hpre Hidx].
    apply Z.gtb_lt in Hidx.
    split.
    + apply slice_split. lia.
    + split; [|discriminate].
      intros Hempty. exfalso.
      apply startsWith_length in Hpre.
      assert (Hlen : String.length
                (JS.slice s 0 (Some (JS.indexOf s FRONT_MATTER_BOUNDARY 4 + 4)))
              = 0%nat) by (rewrite Hempty; reflexivity).
      rewrite slice_prefix_length in Hlen by lia.
      change (String.length FRONT_MATTER_BOUNDARY) with 4%nat in Hpre.
      lia.
  - split; [reflexivity|]. split; reflexivity.
Qed.

End StringHandlingFacts.

(** ** Note targeting *)

Module ParametersFacts.
Import Results PeriodicNoteTypes Constants Obsidian PeriodicNotesHandling Parameters.
Import TargetingKeys Samples.

Lemma keysCount_keysPresent (input : NoteTargetingParams) :
  List.length
    (List.filter (fun key => keyIn key input) ["file"; "uid"; "periodic-note"])
  = keysPresent input.
Proof.
  unfold keysPresent.
  destruct input as [[f|] [u|] [p|]]; reflexivity.
Qed.

Lemma addIssue_message_inj (m1 m2 : string) (ctx : Zod.RefinementCtx) :
  Zod.addIssue Zod.custom m1 ctx = Zod.addIssue Zod.custom m2 ctx -> m1 = m2.
Proof.
  unfold Zod.addIssue. intros H.
  injection H as H. apply app_inv_head in H. now injection H.
Qed.

(** C1, as the claim words it, fails: with an empty [file] next to a
    non-empty [uid] exactly one key is there with a non-empty value, and still
    the call is rejected as faulty targeting. *)
Lemma empty_file_beside_uid_is_rejected :
  let input := {| file := Some ""; uid := Some "abc"; periodic_note := None |} in
  keysPresentAndNonEmpty input = 1%nat /\
  softValidateNoteTargetingAndResolvePath sampleErrorCode sampleStrings
    emptyVault noPeriodicNotes input emptyCtx
  = (None,
     Zod.addIssue Zod.custom (faulty_note_targeting sampleStrings) emptyCtx) /\
  hardValidateNoteTargetingAndResolvePath sampleErrorCode sampleStrings
    emptyVault noPeriodicNotes input emptyCtx
  = (None,
     Zod.addIssue Zod.custom (faulty_note_targeting sampleStrings) emptyCtx).
Proof.
  repeat split.
Qed.

(** C1 (amended). In soft and in hard mode, resolution fails with the faulty
    targeting issue exactly when the number of targeting keys that are in the
    input, whatever their values, is not 1. *)
Theorem faulty_targeting_iff_keys_present_not_one
  (ErrorCode : ErrorCodeEnum) (STRINGS : StringsTable)
  (env : Env) (dni : DailyNotesInterface)
  (data : NoteTargetingParams) (ctx : Zod.RefinementCtx)
  (throwOnMissingNote : bool)
  (Hdistinct : faulty_note_targeting STRINGS <> note_not_found STRINGS) :
  validateNoteTargetingAndResolvePath ErrorCode STRINGS env dni data ctx
    throwOnMissingNote
  = (None, Zod.addIssue Zod.custom (faulty_note_targeting STRINGS) ctx)
  <-> keysPresent data <> 1%nat.
Proof.
  unfold validateNoteTargetingAndResolvePath.
  rewrite keysCount_keysPresent.
  destruct (Nat.eqb_spec (keysPresent data) 1) as [Heq|Hne]; simpl.
  - split; [|intros Hc; now elim Hc].
    intros H. exfalso.
    match type of H with
    | (let '(_, _) := ?e in _) = _ => destruct e as [k p]
    end.
    destruct (negb (negb (p =? "")%string && zodExistingNotePath env p)
              && throwOnMissingNote).
    + apply (f_equal snd) in H. simpl in H.
      apply addIssue_message_inj in H. congruence.
    + discriminate.
  - split; auto.
Qed.

Lemma faulty_targeting_iff_keys_present_not_one_witness :
  validateNoteTargetingAndResolvePath sampleErrorCode sampleStrings
    emptyVault noPeriodicNotes
    {| file := Some ""; uid := Some "abc"; periodic_note := None |}
    emptyCtx true
  = (None, Zod.addIssue Zod.custom (faulty_note_targeting sampleStrings) emptyCtx)
  <-> keysPresent {| file := Some ""; uid := Some "abc"; periodic_note := None |}
      <> 1%nat.
Proof.
  apply (@faulty_targeting_iff_keys_present_not_one sampleErrorCode sampleStrings).
  simpl. discriminate.
Defined.

(** C2, as the claim words it, fails: with the daily notes plugin disabled a
    soft resolution of a [periodic-note] request does not fail at all, and a
    hard one fails with the note-not-found issue. *)
Lemma disabled_periodic_note_is_folded_into_empty_path :
  let input := {| file := None; uid := None; periodic_note := Some DailyNote |} in
  appHasPeriodPluginLoaded noPeriodicNotes DailyNote = false /\
  softValidateNoteTargetingAndResolvePath sampleErrorCode sampleStrings
    emptyVault noPeriodicNotes input emptyCtx
  = (Some {| data := input;
             _computed := {| inputKey := "periodic-note";
                             path := "";
                             pathExists := false |} |},
     emptyCtx) /\
  hardValidateNoteTargetingAndResolvePath sampleErrorCode sampleStrings
    emptyVault noPeriodicNotes input emptyCtx
  = (None, Zod.addIssue Zod.custom (note_not_found sampleStrings) emptyCtx).
Proof.
  repeat split.
Qed.

Lemma periodic_lookup_disabled
  (ErrorCode : ErrorCodeEnum) (STRINGS : StringsTable)
  (dni : DailyNotesInterface) (pn : PeriodicNoteType) :
  appHasPeriodPluginLoaded dni pn = false ->
  getExistingPeriodNotePathIfPluginIsAvailable ErrorCode STRINGS dni pn
  = failure (FeatureUnavailable ErrorCode) (feature_not_available STRINGS pn).
Proof.
  unfold getExistingPeriodNotePathIfPluginIsAvailable, appHasPeriodPluginLoaded.
  destruct pn; intros ->; reflexivity.
Qed.

(** C2 (amended). For a request whose one targeting key is [periodic-note]
    and whose periodic notes plugin is not loaded, the periodic note lookup
    returns a failure with code [ErrorCode.FeatureUnavailable], which is no
    [NotFound] failure when the enum gives the two different numbers; the
    resolver does not pass that failure on but turns it into an empty path:
    the soft resolution succeeds with [pathExists = false] and adds no issue,
    the hard one adds the note-not-found issue. *)
Theorem disabled_periodic_note_resolution
  (ErrorCode : ErrorCodeEnum) (STRINGS : StringsTable)
  (env : Env) (dni : DailyNotesInterface)
  (data : NoteTargetingParams) (pn : PeriodicNoteType)
  (ctx : Zod.RefinementCtx)
  (Hfile : file data = None) (Huid : uid data = None)
  (Hpn : periodic_note data = Some pn)
  (Hdisabled : appHasPeriodPluginLoaded dni pn = false) :
  getExistingPeriodNotePathIfPluginIsAvailable ErrorCode STRINGS dni pn
  = failure (FeatureUnavailable ErrorCode) (feature_not_available STRINGS pn) /\
  (FeatureUnavailable ErrorCode <> NotFound ErrorCode ->
   forall msg,
     getExistingPeriodNotePathIfPluginIsAvailable ErrorCode STRINGS dni pn
     <> failure (NotFound ErrorCode) msg) /\
  softValidateNoteTargetingAndResolvePath ErrorCode STRINGS env dni data ctx
  = (Some {| data := data;
             _computed := {| inputKey := "periodic-note";
                             path := "";
                             pathExists := false |} |},
     ctx) /\
  hardValidateNoteTargetingAndResolvePath ErrorCode STRINGS env dni data ctx
  = (None, Zod.addIssue Zod.custom (note_not_found STRINGS) ctx).
Proof.
  pose proof (periodic_lookup_disabled ErrorCode STRINGS dni pn Hdisabled) as Hres.
  split; [exact Hres|]. split.
  - intros Hne msg. rewrite Hres. unfold failure. congruence.
  - unfold softValidateNoteTargetingAndResolvePath,
      hardValidateNoteTargetingAndResolvePath,
      validateNoteTargetingAndResolvePath,
      getPeriodNotePathIfPluginIsAvailable.
    rewrite keysCount_keysPresent. unfold keysPresent.
    rewrite Hfile, Huid, Hpn, Hres. simpl. split; reflexivity.
Qed.

Lemma disabled_periodic_note_resolution_witness :
  let data := {| file := None; uid := None; periodic_note := Some WeeklyNote |} in
  getExistingPeriodNotePathIfPluginIsAvailable sampleErrorCode sampleStrings
    noPeriodicNotes WeeklyNote
  = failure 424 "weekly notes are not enabled" /\
  hardValidateNoteTargetingAndResolvePath sampleErrorCode sampleStrings
    emptyVault noPeriodicNotes data emptyCtx
  = (None, Zod.addIssue Zod.custom "note not found" emptyCtx).
Proof.
  pose proof (@disabled_periodic_note_resolution sampleErrorCode sampleStrings
                emptyVault noPeriodicNotes
                {| file := None; uid := None; periodic_note := Some WeeklyNote |}
                WeeklyNote emptyCtx eq_refl eq_refl eq_refl eq_refl) as H.
  split; [exact (proj1 H) | exact (proj2 (proj2 (proj2 H)))].
Defined.

(** *** Looking a uid up *)

Lemma find_all_false {A : Type} (f : A -> bool) (l : list A) :
  (forall x, In x l -> f x = false) -> List.find f l = None.
Proof.
  induction l as [|a l IH]; simpl; intros H; [reflexivity|].
  rewrite (H a (or_introl eq_refl)). apply IH. intros x Hx. apply H. now right.
Qed.

Lemma metadataCache_search_no_match (env : Env) (u : string) :
  (forall e, In e (metadataCache env) -> cachedUIDMatches u e = false) ->
  findPathForUIDInMetadataCache env u = None.
Proof.
  intros H. unfold findPathForUIDInMetadataCache.
  rewrite (find_all_false _ _ H). simpl.
  rewrite find_all_false; auto.
Qed.

Lemma markdownFiles_scan_no_match (env : Env) (u : string) :
  (forall n, In n (getMarkdownFiles env) -> noteUIDMatches env u n = false) ->
  findPathForUIDInMarkdownFiles env u = None.
Proof.
  intros H. unfold findPathForUIDInMarkdownFiles.
  now rewrite (find_all_false _ _ H).
Qed.

(** The index is asked first: a non-empty path found there is the answer. *)
Lemma filepathForUID_index_first
  (STRINGS : StringsTable) (env : Env) (u p : string) :
  findPathForUIDInMetadataCache env u = Some p -> p <> "" ->
  filepathForUID STRINGS env u = success p.
Proof.
  intros H Hp. unfold filepathForUID. rewrite H.
  destruct p as [|c p]; [now elim Hp|]. reflexivity.
Qed.

(** The scan of the markdown files is what decides when the index has nothing. *)
Lemma filepathForUID_scan_second
  (STRINGS : StringsTable) (env : Env) (u : string) :
  findPathForUIDInMetadataCache env u = None ->
  filepathForUID STRINGS env u
  = match JS.truthyValue (findPathForUIDInMarkdownFiles env u) with
    | Some p => success p
    | None => failure 404 (note_not_found STRINGS)
    end.
Proof.
  intros H. unfold filepathForUID. now rewrite H.
Qed.

Lemma filepathForUID_no_match
  (STRINGS : StringsTable) (env : Env) (u : string) :
  (forall e, In e (metadataCache env) -> cachedUIDMatches u e = false) ->
  (forall n, In n (getMarkdownFiles env) -> noteUIDMatches env u n = false) ->
  filepathForUID STRINGS env u = failure 404 (note_not_found STRINGS).
Proof.
  intros Hc Hn.
  rewrite filepathForUID_scan_second by now apply metadataCache_search_no_match.
  now rewrite markdownFiles_scan_no_match.
Qed.

(** X22. When [uid] is the one targeting key of the input and neither test of
    the lookup accepts anything (no cached front matter passes the test of the
    index search, no markdown note passes the test of the scan), the soft
    resolution succeeds with an empty path and [pathExists = false] and adds
    no issue, and the hard resolution returns no computed values and adds the
    note-not-found issue. *)
Theorem unmatched_uid_soft_and_hard
  (ErrorCode : ErrorCodeEnum) (STRINGS : StringsTable)
  (env : Env) (dni : DailyNotesInterface)
  (data : NoteTargetingParams) (u : string) (ctx : Zod.RefinementCtx)
  (Hfile : file data = None) (Huid : uid data = Some u)
  (Hpn : periodic_note data = None)
  (Hindex : forall e, In e (metadataCache env) -> cachedUIDMatches u e = false)
  (Hscan : forall n, In n (getMarkdownFiles env) -> noteUIDMatches env u n = false) :
  softValidateNoteTargetingAndResolvePath ErrorCode STRINGS env dni data ctx
  = (Some {| data := data;
             _computed := {| inputKey := if JS.truthyStr u then "uid" else "";
                             path := "";
                             pathExists := false |} |},
     ctx) /\
  hardValidateNoteTargetingAndResolvePath ErrorCode STRINGS env dni data ctx
  = (None, Zod.addIssue Zod.custom (note_not_found STRINGS) ctx).
Proof.
  unfold softValidateNoteTargetingAndResolvePath,
    hardValidateNoteTargetingAndResolvePath,
    validateNoteTargetingAndResolvePath.
  rewrite keysCount_keysPresent. unfold keysPresent.
  rewrite Hfile, Huid, Hpn. simpl.
  destruct (JS.truthyStr u).
  - rewrite (filepathForUID_no_match STRINGS env u Hindex Hscan). simpl.
    split; reflexivity.
  - split; reflexivity.
Qed.

Lemma unmatched_uid_soft_and_hard_witness :
  let data := {| file := None; uid := Some "abc"; periodic_note := None |} in
  softValidateNoteTargetingAndResolvePath sampleErrorCode sampleStrings
    (vaultOf [scalarUIDNote]) noPeriodicNotes data emptyCtx
  = (Some {| data := data;
             _computed := {| inputKey := "uid"; path := ""; pathExists := false |} |},
     emptyCtx) /\
  hardValidateNoteTargetingAndResolvePath sampleErrorCode sampleStrings
    (vaultOf [scalarUIDNote]) noPeriodicNotes data emptyCtx
  = (None, Zod.addIssue Zod.custom "note not found" emptyCtx).
Proof.
  apply (@unmatched_uid_soft_and_hard sampleErrorCode sampleStrings
           (vaultOf [scalarUIDNote]) noPeriodicNotes
           {| file := None; uid := Some "abc"; periodic_note := None |}
           "abc" emptyCtx eq_refl eq_refl eq_refl).
  - intros e [<-|[]]. reflexivity.
  - intros n [<-|[]]. reflexivity.
Defined.

Example scalar_uid_is_found :
  filepathForUID sampleStrings (vaultOf [plainNote; scalarUIDNote]) "xyz"
  = success "x.md".
Proof. reflexivity. Qed.

Example list_uid_is_found_through_the_index :
  filepathForUID sampleStrings (vaultOf [plainNote; listUIDNote]) "b"
  = success "n.md".
Proof. reflexivity. Qed.

(** C4. The scan of the markdown files does not compare the values of a
    [uid] entry one by one as the index search does, it compares the whole
    entry printed as one string. So (1) a uid that is the comma-joined print
    of a note's uid list resolves to that note although none of its values is
    the uid; (2) the uid ["null"] resolves to the first note without a uid
    entry; (3) while the index is empty, a note whose uid list holds the uid is
    not found. *)
Theorem markdown_scan_compares_whole_entry :
  (specUIDMatches (snd listUIDNote) "a,b" = false /\
   filepathForUID sampleStrings (vaultOf [listUIDNote]) "a,b" = success "n.md") /\
  (specUIDMatches (snd plainNote) "null" = false /\
   filepathForUID sampleStrings (vaultOf [plainNote]) "null" = success "plain.md") /\
  (specUIDMatches (snd listUIDNote) "a" = true /\
   filepathForUID sampleStrings (withEmptyIndex (vaultOf [listUIDNote])) "a"
   = failure 404 (note_not_found sampleStrings) /\
   softValidateNoteTargetingAndResolvePath sampleErrorCode sampleStrings
     (withEmptyIndex (vaultOf [listUIDNote])) noPeriodicNotes
     {| file := None; uid := Some "a"; periodic_note := None |} emptyCtx
   = (Some {| data := {| file := None; uid := Some "a"; periodic_note := None |};
              _computed := {| inputKey := "uid"; path := ""; pathExists := false |} |},
      emptyCtx)).
Proof.
  repeat split.
Qed.

End ParametersFacts.

(** ** The call pipeline *)

Section StringAppend.

Lemma string_append_assoc (a b c : string) :
  ((a ++ b) ++ c)%string = (a ++ (b ++ c))%string.
Proof.
  induction a as [|x a IH]; simpl; [reflexivity|]. now rewrite IH.
Qed.

Lemma string_append_empty_r (a : string) : (a ++ "")%string = a.
Proof.
  induction a as [|x a IH]; simpl; [reflexivity|]. now rewrite IH.
Qed.

Lemma concat_empty_cons (a : string) (l : list string) :
  String.concat "" (a :: l) = (a ++ String.concat "" l)%string.
Proof.
  destruct l as [|b l]; simpl; [now rewrite string_append_empty_r | reflexivity].
Qed.

(** Joining a non-empty array puts the separator before every later element. *)
Lemma join_cons (sep h : string) (rest : list string) :
  JS.join sep (h :: rest)
  = (h ++ String.concat "" (List.map (fun x => sep ++ x) rest))%string.
Proof.
  unfold JS.join. revert h.
  induction rest as [|x rest IH]; intros h.
  - simpl. now rewrite string_append_empty_r.
  - change (String.concat sep (h :: x :: rest))
      with (h ++ sep ++ String.concat sep (x :: rest))%string.
    rewrite IH, List.map_cons, concat_empty_cons.
    now rewrite string_append_assoc.
Qed.

Lemma concat_contains {A : Type} (g : A -> string) (x : A) (l : list A) :
  In x l ->
  exists pre post,
    String.concat "" (List.map g l) = (pre ++ g x ++ post)%string.
Proof.
  induction l as [|y l IH]; [intros []|].
  rewrite List.map_cons, concat_empty_cons.
  intros [->|Hin].
  - now exists "", (String.concat "" (List.map g l)).
  - destruct (IH Hin) as (pre & post & Heq).
    exists (g y ++ pre)%string, post.
    now rewrite Heq, string_append_assoc.
Qed.

End StringAppend.

Module MainFacts.
Import Results Main Samples.

Section PipelineFacts.

Variable World : Type.
Variable helpers : Helpers World.

Lemma call_eq {A : Type} (e : Event) (f : World -> A * World) (st : State World) :
  call e f st
  = (fst (f (world st)), {| world := snd (f (world st)); trace := trace st ++ [e] |}).
Proof.
  unfold call. now destruct (f (world st)).
Qed.

Lemma truthyValue_Some (url : string) :
  url <> "" -> JS.truthyValue (Some url) = Some url.
Proof.
  destruct url; [intros H; now elim H | reflexivity].
Qed.

(** C5 (amended). With a success and an [x-success] that is there and not
    empty the success callback is sent; with a failure and an [x-error] that is
    there and not empty the error callback is sent and is handed the failure
    with its code and message; when the field in question is missing or empty,
    nothing is called, world and trace stay as they are, and the result is a
    success-tagged note saying so. *)
Theorem sendUrlCallbackIfNeeded_cases
  (params : AnyParams) (st : State World) :
  (forall res fp url,
     x_success params = Some url -> url <> "" ->
     sendUrlCallbackIfNeeded helpers (HandlerSuccess res fp) params st
     = sent helpers url (HandlerSuccess res fp) params st) /\
  (forall code msg url,
     x_error params = Some url -> url <> "" ->
     sendUrlCallbackIfNeeded helpers (HandlerFailure code msg) params st
     = sent helpers url (HandlerFailure code msg) params st) /\
  (forall res fp,
     x_success params = None \/ x_success params = Some "" ->
     sendUrlCallbackIfNeeded helpers (HandlerSuccess res fp) params st
     = (Success "No `x-success` callback URL provided", st)) /\
  (forall code msg,
     x_error params = None \/ x_error params = Some "" ->
     sendUrlCallbackIfNeeded helpers (HandlerFailure code msg) params st
     = (Success "No `x-error` callback URL provided", st)).
Proof.
  unfold sendUrlCallbackIfNeeded, sent. simpl.
  repeat split; intros.
  - rewrite H, (truthyValue_Some H0). apply call_eq.
  - rewrite H, (truthyValue_Some H0). apply call_eq.
  - now destruct H as [-> | ->].
  - now destruct H as [-> | ->].
Qed.

(** C9. The note is brought into focus only for a success whose parameters
    do not set [silent] and that carries a processed file path; a failure, a
    set [silent] and a success without a path each leave world and trace as
    they are and answer with a success-tagged explanation of their own. *)
Theorem openFileIfNeeded_cases
  (params : AnyParams) (st : State World) :
  (forall code msg,
     openFileIfNeeded helpers (HandlerFailure code msg) params st
     = (Success "No file to open, the handler failed", st)) /\
  (forall res fp,
     JS.truthy (silent params) = true ->
     openFileIfNeeded helpers (HandlerSuccess res fp) params st
     = (Success "No file to open, the `silent` parameter was set", st)) /\
  (forall res fp,
     JS.truthy (silent params) = false ->
     JS.truthyValue fp = None ->
     openFileIfNeeded helpers (HandlerSuccess res fp) params st
     = (Success
          "No file to open, handler didn't return a `processedFilepath` property",
        st)) /\
  (forall res fp filepath,
     JS.truthy (silent params) = false ->
     JS.truthyValue fp = Some filepath ->
     openFileIfNeeded helpers (HandlerSuccess res fp) params st
     = focused helpers filepath st) /\
  "No file to open, the handler failed"
    <> "No file to open, the `silent` parameter was set" /\
  "No file to open, the handler failed"
    <> "No file to open, handler didn't return a `processedFilepath` property" /\
  "No file to open, the `silent` parameter was set"
    <> "No file to open, handler didn't return a `processedFilepath` property".
Proof.
  unfold openFileIfNeeded, focused.
  repeat split; intros; try discriminate.
  - now rewrite H.
  - now rewrite H, H0.
  - rewrite H, H0. apply call_eq.
Qed.

Lemma sendUrlCallbackIfNeeded_trace
  (hr : AnyHandlerResult) (params : AnyParams) (st : State World) :
  exists events,
    trace (snd (sendUrlCallbackIfNeeded helpers hr params st))
    = (trace st ++ events)%list /\
    (events = [] \/ exists url, events = [EvSendUrlCallback url hr params]).
Proof.
  unfold sendUrlCallbackIfNeeded.
  destruct (handlerIsSuccess hr);
    match goal with
    | |- context [JS.truthyValue ?o] => destruct (JS.truthyValue o) as [url|]
    end.
  1,3: rewrite call_eq; simpl; eexists; split; [reflexivity|]; right; now exists url.
  all: exists []; simpl; rewrite app_nil_r; auto.
Qed.

Lemma openFileIfNeeded_trace
  (hr : AnyHandlerResult) (params : AnyParams) (st : State World) :
  exists events,
    trace (snd (openFileIfNeeded helpers hr params st))
    = (trace st ++ events)%list /\
    (events = [] \/ exists filepath, events = [EvFocusOrOpenNote filepath]).
Proof.
  unfold openFileIfNeeded.
  destruct hr as [res fp|code msg].
  - destruct (JS.truthy (silent params)).
    + exists []; simpl; rewrite app_nil_r; auto.
    + destruct (JS.truthyValue fp) as [filepath|].
      * rewrite call_eq; simpl; eexists; split; [reflexivity|]; right.
        now exists filepath.
      * exists []; simpl; rewrite app_nil_r; auto.
  - exists []; simpl; rewrite app_nil_r; auto.
Qed.

(** How a valid call unfolds, step by step. *)
Lemma handleIncomingCall_steps
  (handlerFunc : HandlerFunction World) (params : AnyParams) (st : State World) :
  let hr := fst (handlerFunc params (world st)) in
  let st1 := {| world := snd (handlerFunc params (world st));
                trace := trace st ++ [EvHandlerCalled params; EvHandlerResolved hr] |} in
  let cb := sendUrlCallbackIfNeeded helpers hr params st1 in
  let op := openFileIfNeeded helpers hr params (snd cb) in
  let res := {| params := params;
                handlerResult := hr;
                sendCallbackResult := fst cb;
                openResult := fst op |} in
  handleIncomingCall helpers handlerFunc params st
  = (res,
     {| world := world (snd op);
        trace := trace (snd op)
                 ++ [EvLogToConsole "Call handled:" (LogProcessingResult res)] |}).
Proof.
  cbv zeta. unfold handleIncomingCall, awaitHandler, bind, emit, ret. simpl.
  destruct (handlerFunc params (world st)) as [hr w1]. simpl.
  rewrite <- app_assoc. simpl.
  destruct (sendUrlCallbackIfNeeded helpers hr params _) as [cb st2]. simpl.
  destruct (openFileIfNeeded helpers hr params st2) as [op st3]. reflexivity.
Qed.

(** C8. A valid call runs in this order: the handler is called and its result
    awaited, then the callback step runs on that result, then the open-note
    step, and last the [ProcessingResult] made of the parameters and the three
    outcomes is logged and returned. In the trace the handler's two events come
    first, then the callback (if one is sent), then the opening of the note (if
    it is opened), then the log entry. *)
Theorem handleIncomingCall_order
  (handlerFunc : HandlerFunction World) (params : AnyParams) (st : State World) :
  let hr := fst (handlerFunc params (world st)) in
  let st1 := {| world := snd (handlerFunc params (world st));
                trace := trace st ++ [EvHandlerCalled params; EvHandlerResolved hr] |} in
  let cb := sendUrlCallbackIfNeeded helpers hr params st1 in
  let op := openFileIfNeeded helpers hr params (snd cb) in
  let out := handleIncomingCall helpers handlerFunc params st in
  fst out = {| params := params;
               handlerResult := hr;
               sendCallbackResult := fst cb;
               openResult := fst op |} /\
  world (snd out) = world (snd op) /\
  exists callbackEvents openEvents,
    trace (snd out)
    = (trace st
       ++ [EvHandlerCalled params; EvHandlerResolved hr]
       ++ callbackEvents
       ++ openEvents
       ++ [EvLogToConsole "Call handled:" (LogProcessingResult (fst out))])%list /\
    (callbackEvents = [] \/
     exists url, callbackEvents = [EvSendUrlCallback url hr params]) /\
    (openEvents = [] \/
     exists filepath, openEvents = [EvFocusOrOpenNote filepath]).
Proof.
  cbv zeta. rewrite handleIncomingCall_steps. simpl.
  split; [reflexivity|]. split; [reflexivity|].
  set (hr := fst (handlerFunc params (world st))).
  set (st1 := {| world := _; trace := _ |}).
  destruct (sendUrlCallbackIfNeeded_trace hr params st1) as (cbEvs & Hcb & Hcbs).
  destruct (openFileIfNeeded_trace hr params
              (snd (sendUrlCallbackIfNeeded helpers hr params st1)))
    as (opEvs & Hop & Hops).
  exists cbEvs, opEvs. split; [|now split].
  rewrite Hop, Hcb. subst st1. simpl.
  now rewrite <- !app_assoc.
Qed.

(** C6. When the handler succeeds, [x-success] is set to a URL and [silent]
    is set (truthy), the success callback is sent all the same, the note is
    not opened, and the open-note outcome is the success-tagged remark that
    [silent] was set. *)
Theorem silent_call_sends_callback_skips_open
  (handlerFunc : HandlerFunction World) (params : AnyParams) (st : State World)
  (res : list (string * JS.Value)) (fp : option string) (w1 : World)
  (url : string)
  (Hhandler : handlerFunc params (world st) = (HandlerSuccess res fp, w1))
  (Hurl : x_success params = Some url) (Hnonempty : url <> "")
  (Hsilent : JS.truthy (silent params) = true) :
  let hr := HandlerSuccess res fp in
  let out := handleIncomingCall helpers handlerFunc params st in
  sendCallbackResult (fst out)
  = fst (sendUrlCallback helpers url hr params w1) /\
  openResult (fst out)
  = Success "No file to open, the `silent` parameter was set" /\
  world (snd out) = snd (sendUrlCallback helpers url hr params w1) /\
  trace (snd out)
  = (trace st
     ++ [EvHandlerCalled params;
         EvHandlerResolved hr;
         EvSendUrlCallback url hr params;
         EvLogToConsole "Call handled:" (LogProcessingResult (fst out))])%list.
Proof.
  cbv zeta. rewrite handleIncomingCall_steps. rewrite Hhandler. simpl.
  unfold sendUrlCallbackIfNeeded. simpl.
  rewrite Hurl, (truthyValue_Some Hnonempty), call_eq. simpl.
  rewrite Hsilent. simpl.
  repeat split. now rewrite <- !app_assoc.
Qed.

(** The message shown for a failed validation: the heading, then one line per
    issue. *)
Lemma parseErrorMessage_lines (parseError : Zod.ZodError) :
  parseErrorMessage parseError
  = ("Incoming call failed"
     ++ String.concat "" (List.map (fun e => JS.LF ++ errorLine e) parseError))%string.
Proof.
  unfold parseErrorMessage. rewrite join_cons. now rewrite List.map_map.
Qed.

(** C7. When a call's parameters fail validation, the route's handler is not
    called and no callback is sent: all that happens is that one message is
    shown to the user and logged as an error. The message holds one line for
    each issue, none left out, and each line reads
    [<fieldPath>: <message>] after its dash. *)
Theorem invalid_call_is_reported_not_handled
  (route : Route World) (incomingParams : RawParameters) (st : State World)
  (parseError : Zod.ZodError)
  (Hinvalid : schema route incomingParams (world st) = ParseFailure parseError) :
  let msg := parseErrorMessage parseError in
  protocolHandler helpers route incomingParams st
  = (tt, {| world := showBrandedNotice helpers msg (world st);
            trace := trace st ++ [EvShowBrandedNotice msg; EvLogErrorToConsole msg] |}) /\
  msg = ("Incoming call failed"
         ++ String.concat ""
              (List.map
                 (fun e =>
                    JS.LF ++ "- "
                    ++ JS.join "." (List.map Zod.segmentToString (Zod.path e))
                    ++ ": " ++ Zod.message e)
                 parseError))%string /\
  forall e, In e parseError ->
    exists before after,
      msg = (before
             ++ (JS.join "." (List.map Zod.segmentToString (Zod.path e))
                 ++ ": " ++ Zod.message e)
             ++ after)%string.
Proof.
  cbv zeta. split; [|split].
  - unfold protocolHandler. rewrite Hinvalid.
    unfold handleParseError, bind, emit. rewrite call_eq. simpl.
    now rewrite <- app_assoc.
  - apply parseErrorMessage_lines.
  - intros e He. rewrite parseErrorMessage_lines.
    destruct (concat_contains (fun e => JS.LF ++ errorLine e)%string e parseError He)
      as (pre & post & Heq).
    rewrite Heq. unfold errorLine.
    exists ("Incoming call failed" ++ pre ++ JS.LF ++ "- ")%string, post.
    now rewrite !string_append_assoc.
Qed.

End PipelineFacts.

(** C5, as the claim words it, fails: an [x-error] key that is there with an
    empty value is not called when the handler failed, and neither is such an
    [x-success] key when it succeeded; both count as no callback asked for. *)
Lemma empty_callback_url_is_not_called :
  x_error emptyUrlParams = Some "" /\
  sendUrlCallbackIfNeeded sampleHelpers (HandlerFailure 404 "Note not found")
    emptyUrlParams freshState
  = (Success "No `x-error` callback URL provided", freshState) /\
  x_success emptyUrlParams = Some "" /\
  sendUrlCallbackIfNeeded sampleHelpers (HandlerSuccess [] (Some "a.md"))
    emptyUrlParams freshState
  = (Success "No `x-success` callback URL provided", freshState).
Proof.
  repeat split.
Qed.

Lemma sendUrlCallbackIfNeeded_cases_witness :
  sendUrlCallbackIfNeeded sampleHelpers (HandlerSuccess [] None) sampleParams freshState
  = sent sampleHelpers "app://done" (HandlerSuccess [] None) sampleParams freshState /\
  sendUrlCallbackIfNeeded sampleHelpers (HandlerFailure 404 "Note not found")
    sampleParams freshState
  = sent sampleHelpers "app://failed" (HandlerFailure 404 "Note not found")
      sampleParams freshState /\
  sendUrlCallbackIfNeeded sampleHelpers (HandlerSuccess [] None) bareParams freshState
  = (Success "No `x-success` callback URL provided", freshState) /\
  sendUrlCallbackIfNeeded sampleHelpers (HandlerFailure 404 "Note not found")
    bareParams freshState
  = (Success "No `x-error` callback URL provided", freshState).
Proof.
  destruct (sendUrlCallbackIfNeeded_cases sampleHelpers sampleParams freshState)
    as (Hsucc & Hfail & _ & _).
  destruct (sendUrlCallbackIfNeeded_cases sampleHelpers bareParams freshState)
    as (_ & _ & Hnosucc & Hnofail).
  split; [|split; [|split]].
  - apply Hsucc; [reflexivity | discriminate].
  - apply Hfail; [reflexivity | discriminate].
  - apply Hnosucc. left. reflexivity.
  - apply Hnofail. left. reflexivity.
Defined.

Lemma openFileIfNeeded_cases_witness :
  openFileIfNeeded sampleHelpers (HandlerSuccess [] (Some "a.md")) sampleParams freshState
  = (Success "No file to open, the `silent` parameter was set", freshState) /\
  openFileIfNeeded sampleHelpers (HandlerSuccess [] None) bareParams freshState
  = (Success "No file to open, handler didn't return a `processedFilepath` property",
     freshState) /\
  openFileIfNeeded sampleHelpers (HandlerSuccess [] (Some "a.md")) bareParams freshState
  = focused sampleHelpers "a.md" freshState.
Proof.
  destruct (openFileIfNeeded_cases sampleHelpers sampleParams freshState)
    as (_ & Hsilent & _).
  destruct (openFileIfNeeded_cases sampleHelpers bareParams freshState)
    as (_ & _ & Hnopath & Hopen & _).
  split; [|split].
  - apply Hsilent. reflexivity.
  - apply Hnopath; reflexivity.
  - apply Hopen; reflexivity.
Defined.

Lemma silent_call_sends_callback_skips_open_witness :
  let hr := HandlerSuccess [("message", JS.VStr "done")] (Some "a.md") in
  let out := handleIncomingCall sampleHelpers sampleHandler sampleParams freshState in
  openResult (fst out)
  = Success "No file to open, the `silent` parameter was set" /\
  calledUrls (world (snd out)) = ["app://done"] /\
  focusedNotes (world (snd out)) = [] /\
  trace (snd out)
  = [EvHandlerCalled sampleParams;
     EvHandlerResolved hr;
     EvSendUrlCallback "app://done" hr sampleParams;
     EvLogToConsole "Call handled:" (LogProcessingResult (fst out))].
Proof.
  assert (Hne : "app://done" <> "") by discriminate.
  destruct (@silent_call_sends_callback_skips_open _ sampleHelpers sampleHandler
              sampleParams freshState
              [("message", JS.VStr "done")] (Some "a.md") freshWorld "app://done"
              eq_refl eq_refl Hne eq_refl)
    as (_ & Hopen & Hworld & Htrace).
  cbv zeta. split; [exact Hopen|]. split; [now rewrite Hworld|].
  split; [now rewrite Hworld | exact Htrace].
Defined.

Lemma invalid_call_is_reported_not_handled_witness :
  let msg := ("Incoming call failed" ++ JS.LF
              ++ "- vault: Required" ++ JS.LF
              ++ "- x-success: Invalid url")%string in
  protocolHandler sampleHelpers rejectingRoute [("file", "a.md")] freshState
  = (tt, {| world := {| calledUrls := []; focusedNotes := []; notices := [msg] |};
            trace := [EvShowBrandedNotice msg; EvLogErrorToConsole msg] |}).
Proof.
  exact (proj1 (@invalid_call_is_reported_not_handled _ sampleHelpers rejectingRoute
                  [("file", "a.md")] freshState sampleIssues eq_refl)).
Defined.

End MainFacts.

(* ========================================================================= *)
(** * Further properties *)

(** ** Strings, continued *)

Section MoreStringFacts.

Lemma string_length_append (a b : string) :
  String.length (a ++ b) = (String.length a + String.length b)%nat.
Proof.
  induction a as [|c a IH]; simpl; [reflexivity|]. now rewrite IH.
Qed.

Lemma substring_length (s : string) (n m : nat) :
  String.length (String.substring n m s) = Nat.min m (String.length s - n).
Proof.
  revert n m; induction s as [|c s IH]; intros [|n] [|m]; simpl; auto.
  now rewrite IH, Nat.sub_0_r.
Qed.

Lemma substring_add (s : string) (n a b : nat) :
  String.substring n (a + b) s
  = (String.substring n a s ++ String.substring (n + a) b s)%string.
Proof.
  revert n a; induction s as [|c s IH]; intros n a.
  - destruct n, a, b; reflexivity.
  - destruct n as [|n].
    + destruct a as [|a]; simpl.
      * reflexivity.
      * f_equal. apply (IH 0%nat a).
    + simpl. apply IH.
Qed.

Lemma substring_app_left (a b : string) :
  String.substring 0 (String.length a) (a ++ b) = a.
Proof.
  induction a as [|c a IH]; simpl.
  - now destruct b.
  - now rewrite IH.
Qed.

Lemma substring_app_right (a b : string) :
  String.substring (String.length a) (String.length b) (a ++ b) = b.
Proof.
  induction a as [|c a IH]; simpl; [|exact IH].
  pose proof (substring_split b (String.length b)) as H.
  rewrite Nat.sub_diag in H.
  assert (Hnil : String.substring (String.length b) 0 b = "").
  { clear H. induction b as [|d b IHb]; simpl; auto. }
  rewrite Hnil, string_append_empty_r in H. exact H.
Qed.

Lemma startsWith_app (a b : string) : JS.startsWith (a ++ b) a = true.
Proof.
  unfold JS.startsWith. apply String.prefix_correct. apply substring_app_left.
Qed.

Lemma endsWith_app (a b : string) : JSMore.endsWith (a ++ b) b = true.
Proof.
  unfold JSMore.endsWith. rewrite string_length_append.
  apply andb_true_iff. split.
  - apply Nat.leb_le. lia.
  - replace (String.length a + String.length b - String.length b)%nat
      with (String.length a) by lia.
    rewrite substring_app_right. apply String.eqb_refl.
Qed.

Lemma endsWith_split (s p : string) :
  JSMore.endsWith s p = true ->
  s = (String.substring 0 (String.length s - String.length p) s ++ p)%string.
Proof.
  unfold JSMore.endsWith. intros H.
  apply andb_true_iff in H. destruct H as [Hle Heq].
  apply Nat.leb_le in Hle. apply String.eqb_eq in Heq.
  pose proof (substring_split s (String.length s - String.length p)) as H.
  replace (String.length s - (String.length s - String.length p))%nat
    with (String.length p) in H by lia.
  rewrite Heq in H. now symmetry.
Qed.

Lemma removeAtStart_app (p rest : string) :
  JSMore.removeAtStart (p ++ rest) p = rest.
Proof.
  unfold JSMore.removeAtStart. rewrite startsWith_app.
  unfold JS.slice. rewrite clampIndex_nonneg by lia.
  rewrite string_length_append, Nat2Z.id.
  replace (Nat.min (String.length p) (String.length p + String.length rest))
    with (String.length p) by lia.
  replace (String.length p + String.length rest - String.length p)%nat
    with (String.length rest) by lia.
  apply substring_app_right.
Qed.

Lemma removeAtEnd_app (rest p : string) :
  JSMore.removeAtEnd (rest ++ p) p = rest.
Proof.
  unfold JSMore.removeAtEnd. rewrite endsWith_app.
  unfold JS.slice. rewrite !clampIndex_nonneg by lia.
  rewrite string_length_append, Nat2Z.id. simpl.
  replace (Nat.min (String.length rest + String.length p - String.length p)
             (String.length rest + String.length p) - 0)%nat
    with (String.length rest) by lia.
  apply substring_app_left.
Qed.

Lemma index_lower_bound (p s : string) (n m : nat) :
  String.index n p s = Some m -> (n <= m)%nat.
Proof.
  revert n m; induction s as [|c s IH]; intros n m; simpl.
  - destruct n; [destruct p; intros H; inversion H; lia | discriminate].
  - destruct n as [|n].
    + intros _. lia.
    + destruct (String.index n p s) as [k|] eqn:Hk; [|discriminate].
      intros H. inversion H. apply IH in Hk. lia.
Qed.

End MoreStringFacts.

(** ** The remaining functions of [string-handling.ts] *)

Module StringHandlingMoreFacts.
Import StringHandling StringHandlingMore.

Lemma slice_from_app (a b : string) :
  JS.slice (a ++ b) (Z.of_nat (String.length a)) None = b.
Proof.
  unfold JS.slice. rewrite clampIndex_nonneg by lia.
  rewrite string_length_append, Nat2Z.id.
  replace (Nat.min (String.length a) (String.length a + String.length b))
    with (String.length a) by lia.
  replace (String.length a + String.length b - String.length a)%nat
    with (String.length b) by lia.
  apply substring_app_right.
Qed.

Lemma slice_to_app (a b : string) :
  JS.slice (a ++ b) 0 (Some (Z.of_nat (String.length a))) = a.
Proof.
  unfold JS.slice. rewrite !clampIndex_nonneg by lia.
  rewrite string_length_append, Nat2Z.id. simpl.
  replace (Nat.min (String.length a) (String.length a + String.length b) - 0)%nat
    with (String.length a) by lia.
  apply substring_app_left.
Qed.

(** X1. [ensureNewline] returns a text that ends in a line feed; it keeps the
    input as the beginning of the result and adds at most the one character;
    applied to its own result it changes nothing. *)
Theorem ensureNewline_ends_in_newline (str : option string) :
  let s := match str with Some s => s | None => "" end in
  JSMore.endsWith (ensureNewline str) JS.LF = true /\
  (ensureNewline str = s \/ ensureNewline str = (s ++ JS.LF)%string) /\
  JS.startsWith (ensureNewline str) s = true /\
  ensureNewline (Some (ensureNewline str)) = ensureNewline str.
Proof.
  cbv zeta. unfold ensureNewline.
  set (s := match str with Some s => s | None => "" end).
  destruct (JSMore.endsWith s JS.LF) eqn:He.
  - split; [exact He|]. split; [now left|]. split; [|now rewrite He].
    rewrite <- (string_append_empty_r s) at 1. apply startsWith_app.
  - split; [apply endsWith_app|].
    split; [now right|]. split; [apply startsWith_app|].
    now rewrite endsWith_app.
Qed.

Lemma unwrap_wrapped (yaml : string) :
  unwrapFrontMatter (FRONT_MATTER_BOUNDARY ++ yaml ++ FRONT_MATTER_BOUNDARY)
  = yaml.
Proof.
  unfold unwrapFrontMatter.
  now rewrite removeAtStart_app, removeAtEnd_app.
Qed.

(** X2. Taking the boundary lines off a wrapped block gives back exactly what
    was wrapped, whatever it is (empty, or itself holding boundary lines). *)
Theorem unwrapFrontMatter_of_wrapped (yaml : string) :
  unwrapFrontMatter (FRONT_MATTER_BOUNDARY ++ yaml ++ FRONT_MATTER_BOUNDARY)
  = yaml.
Proof.
  unfold unwrapFrontMatter.
  rewrite removeAtStart_app. apply removeAtEnd_app.
Qed.

(** Where the closing boundary is found, and what the two parts are. *)
Lemma extractNoteContentParts_shape (s : string) :
  containsFrontMatter s = true ->
  exists idx,
    String.index 4 FRONT_MATTER_BOUNDARY s = Some idx /\
    (4 <= idx)%nat /\ (idx + 4 <= String.length s)%nat /\
    frontMatter (extractNoteContentParts s)
    = (FRONT_MATTER_BOUNDARY ++ String.substring 4 (idx - 4) s
       ++ FRONT_MATTER_BOUNDARY)%string.
Proof.
  intros Hc. unfold extractNoteContentParts. rewrite Hc. simpl.
  apply andb_true_iff in Hc. destruct Hc as [Hpre Hidx].
  unfold JS.indexOf in *.
  destruct (String.index 4 FRONT_MATTER_BOUNDARY s) as [idx|] eqn:Hi;
    [|discriminate].
  exists idx.
  pose proof (index_lower_bound _ _ _ Hi) as Hlo.
  pose proof (String.index_correct1 _ _ _ _ Hi) as Hclose.
  change (String.length FRONT_MATTER_BOUNDARY) with 4%nat in Hclose.
  assert (Hlen : (idx + 4 <= String.length s)%nat).
  { pose proof (substring_length s idx 4) as Hl. rewrite Hclose in Hl.
    change (String.length FRONT_MATTER_BOUNDARY) with 4%nat in Hl. lia. }
  apply String.prefix_correct in Hpre.
  change (String.length FRONT_MATTER_BOUNDARY) with 4%nat in Hpre.
  repeat split; auto.
  unfold JS.slice. rewrite !clampIndex_nonneg by lia. simpl Z.to_nat.
  replace (Nat.min (Z.to_nat (Z.of_nat idx + 4)) (String.length s)
           - Nat.min 0 (String.length s))%nat
    with (4 + ((idx - 4) + 4))%nat by lia.
  replace (Nat.min 0 (String.length s)) with 0%nat by lia.
  rewrite substring_add, substring_add.
  change (0 + 4)%nat with 4%nat.
  replace (4 + (idx - 4))%nat with idx by lia.
  now rewrite Hpre, Hclose.
Qed.

(** X3. The front matter [extractNoteContentParts] returns is a wrapped block:
    unwrapping it and putting the two boundary lines back gives it again. *)
Theorem unwrap_extracted_frontMatter (s : string) :
  containsFrontMatter s = true ->
  let fm := frontMatter (extractNoteContentParts s) in
  (FRONT_MATTER_BOUNDARY ++ unwrapFrontMatter fm ++ FRONT_MATTER_BOUNDARY)%string
  = fm.
Proof.
  intros Hc. cbv zeta.
  destruct (extractNoteContentParts_shape s Hc) as (idx & _ & _ & _ & Hfm).
  rewrite Hfm at 1. now rewrite unwrap_wrapped.
Qed.

Lemma unwrap_extracted_frontMatter_witness :
  let s := ("---" ++ JS.LF ++ "a: 1" ++ JS.LF ++ "---" ++ JS.LF ++ "text")%string in
  unwrapFrontMatter (frontMatter (extractNoteContentParts s))
  = ("a: 1" ++ JS.LF)%string /\
  (FRONT_MATTER_BOUNDARY
   ++ unwrapFrontMatter (frontMatter (extractNoteContentParts s))
   ++ FRONT_MATTER_BOUNDARY)%string
  = frontMatter (extractNoteContentParts s).
Proof.
  split; [reflexivity|].
  apply (unwrap_extracted_frontMatter
           ("---" ++ JS.LF ++ "a: 1" ++ JS.LF ++ "---" ++ JS.LF ++ "text")).
  reflexivity.
Defined.

(** X4. A note has front matter only if it is at least two boundary lines long;
    the front matter then begins and ends with a boundary line, and it ends
    at the first boundary found from position 4 on: no boundary lies between
    position 4 and its closing one. *)
Theorem extracted_frontMatter_bounds (s : string) :
  containsFrontMatter s = true ->
  let fm := frontMatter (extractNoteContentParts s) in
  JS.startsWith fm FRONT_MATTER_BOUNDARY = true /\
  JSMore.endsWith fm FRONT_MATTER_BOUNDARY = true /\
  (8 <= String.length fm <= String.length s)%nat /\
  forall p, (4 <= p)%nat -> (p + 4 < String.length fm)%nat ->
    String.substring p 4 s <> FRONT_MATTER_BOUNDARY.
Proof.
  intros Hc. cbv zeta.
  destruct (extractNoteContentParts_shape s Hc) as (idx & Hi & Hlo & Hlen & Hfm).
  assert (Hl : String.length (frontMatter (extractNoteContentParts s))
               = (idx + 4)%nat).
  { rewrite Hfm, !string_length_append, substring_length.
    change (String.length FRONT_MATTER_BOUNDARY) with 4%nat. lia. }
  repeat split.
  - rewrite Hfm. apply startsWith_app.
  - rewrite Hfm, <- string_append_assoc. apply endsWith_app.
  - lia.
  - lia.
  - intros p Hp Hq. rewrite Hl in Hq.
    apply (String.index_correct2 _ _ _ _ Hi p); lia.
Qed.

Lemma extracted_frontMatter_bounds_witness :
  let s := ("---" ++ JS.LF ++ "a: 1" ++ JS.LF ++ "---" ++ JS.LF ++ "text")%string in
  (8 <= String.length (frontMatter (extractNoteContentParts s))
   <= String.length s)%nat.
Proof.
  exact (proj1 (proj2 (proj2
    (extracted_frontMatter_bounds
       ("---" ++ JS.LF ++ "a: 1" ++ JS.LF ++ "---" ++ JS.LF ++ "text")
       eq_refl)))).
Defined.

End StringHandlingMoreFacts.

(** ** Search patterns *)

Module ParseRegexFacts.
Import StringHandlingMore StringHandlingMoreFacts.

Lemma indexOf_none_no_prefix (p : string) (c : ascii) (rest : string) :
  JS.indexOf (String c rest) p 0 = -1 ->
  String.prefix p (String c rest) = false /\ JS.indexOf rest p 0 = -1.
Proof.
  unfold JS.indexOf. cbn [String.index].
  destruct (String.prefix p (String c rest)); [intros H; lia|].
  destruct (String.index 0 p rest); [intros H; lia | auto].
Qed.

Lemma lastIndexFrom_no_match (q : string) (qc : ascii) (f : string)
  (pos : nat) (found : Z) :
  JS.indexOf f (String qc q) 0 = -1 ->
  JSMore.lastIndexFrom f (String qc q) pos found = found.
Proof.
  revert pos found. induction f as [|c f IH]; intros pos found H.
  - reflexivity.
  - apply indexOf_none_no_prefix in H. destruct H as [Hp Hrest].
    cbn [JSMore.lastIndexFrom]. rewrite Hp. now apply IH.
Qed.

Lemma lastIndexFrom_last_slash (p f : string) (pos : nat) (found : Z) :
  JS.indexOf f "/" 0 = -1 ->
  JSMore.lastIndexFrom (p ++ "/" ++ f) "/" pos found
  = Z.of_nat (pos + String.length p).
Proof.
  intros Hf. revert pos found. induction p as [|c p IH]; intros pos found.
  - change ("" ++ "/" ++ f)%string with (String "/" f).
    cbn [JSMore.lastIndexFrom].
    pose proof (startsWith_app "/" f) as Hs. unfold JS.startsWith in Hs.
    change ("/" ++ f)%string with (String "/" f) in Hs. rewrite Hs.
    rewrite lastIndexFrom_no_match by exact Hf. simpl. f_equal. lia.
  - change ((String c p) ++ "/" ++ f)%string with (String c (p ++ "/" ++ f)).
    cbn [JSMore.lastIndexFrom]. rewrite IH. simpl. f_equal. lia.
Qed.

(** X5. [parseStringIntoRegex] reads [/pattern/flags]: when the pattern is not
    empty and the flags hold no slash, [RegExp] is given exactly that pattern
    (slashes inside it included) and those flags, and the outcome is its
    result, or the "unparseable" error when it throws. *)
Theorem parseStringIntoRegex_pattern_and_flags {R : Type}
  (STRINGS : SearchStrings) (newRegExp : string -> string -> option R)
  (pattern flags : string) :
  pattern <> "" ->
  JS.indexOf flags "/" 0 = -1 ->
  parseStringIntoRegex STRINGS newRegExp ("/" ++ pattern ++ "/" ++ flags)
  = match newRegExp pattern flags with
    | Some searchPattern => RegexSuccess searchPattern
    | None => RegexFailure (search_pattern_unparseable STRINGS)
    end.
Proof.
  intros Hp Hf. unfold parseStringIntoRegex.
  rewrite startsWith_app. simpl negb. cbv iota.
  pose proof (slice_from_app "/" (pattern ++ "/" ++ flags)) as Hre.
  change (Z.of_nat (String.length "/")) with 1 in Hre. rewrite Hre.
  unfold JSMore.lastIndexOf. rewrite lastIndexFrom_last_slash by exact Hf.
  simpl Nat.add.
  destruct (Z.eqb_spec (Z.of_nat (String.length pattern)) 0) as [H0|_].
  { destruct pattern; [now elim Hp | discriminate]. }
  rewrite slice_to_app.
  replace (Z.of_nat (String.length pattern) + 1)
    with (Z.of_nat (String.length (pattern ++ "/"))).
  2: { rewrite string_length_append. simpl. lia. }
  rewrite <- (string_append_assoc pattern "/" flags).
  now rewrite slice_from_app.
Qed.

Lemma parseStringIntoRegex_pattern_and_flags_witness :
  parseStringIntoRegex
    {| search_pattern_invalid := "invalid";
       search_pattern_empty := "empty";
       search_pattern_unparseable := "unparseable" |}
    (fun re flags => Some (re, flags))
    "/^a/b$/gi"
  = RegexSuccess ("^a/b$", "gi").
Proof.
  apply (@parseStringIntoRegex_pattern_and_flags (string * string)
           {| search_pattern_invalid := "invalid";
              search_pattern_empty := "empty";
              search_pattern_unparseable := "unparseable" |}
           (fun re flags => Some (re, flags)) "^a/b$" "gi").
  - discriminate.
  - reflexivity.
Defined.

(** X6. A text that does not begin with a slash is refused as invalid, and one
    that has nothing between its two slashes as empty; in neither case is
    [RegExp] asked. *)
Theorem parseStringIntoRegex_refusals {R : Type}
  (STRINGS : SearchStrings) (newRegExp : string -> string -> option R) :
  (forall search,
     JS.startsWith search "/" = false ->
     parseStringIntoRegex STRINGS newRegExp search
     = RegexFailure (search_pattern_invalid STRINGS)) /\
  (forall flags,
     JS.indexOf flags "/" 0 = -1 ->
     parseStringIntoRegex STRINGS newRegExp ("//" ++ flags)
     = RegexFailure (search_pattern_empty STRINGS)).
Proof.
  split.
  - intros search H. unfold parseStringIntoRegex. now rewrite H.
  - intros flags Hf. unfold parseStringIntoRegex.
    change ("//" ++ flags)%string with ("/" ++ "" ++ "/" ++ flags)%string.
    rewrite startsWith_app. simpl negb. cbv iota.
    pose proof (slice_from_app "/" ("" ++ "/" ++ flags)) as Hre.
    change (Z.of_nat (String.length "/")) with 1 in Hre. rewrite Hre.
    unfold JSMore.lastIndexOf. rewrite lastIndexFrom_last_slash by exact Hf.
    reflexivity.
Qed.

Lemma parseStringIntoRegex_refusals_witness :
  parseStringIntoRegex
    {| search_pattern_invalid := "invalid";
       search_pattern_empty := "empty";
       search_pattern_unparseable := "unparseable" |}
    (fun re flags => Some (re, flags))
    "plain text"
  = RegexFailure "invalid" /\
  parseStringIntoRegex
    {| search_pattern_invalid := "invalid";
       search_pattern_empty := "empty";
       search_pattern_unparseable := "unparseable" |}
    (fun re flags => Some (re, flags))
    "//i"
  = RegexFailure "empty".
Proof.
  pose proof (@parseStringIntoRegex_refusals (string * string)
                {| search_pattern_invalid := "invalid";
                   search_pattern_empty := "empty";
                   search_pattern_unparseable := "unparseable" |}
                (fun re flags => Some (re, flags))) as [Hinvalid Hempty].
  split.
  - apply Hinvalid. reflexivity.
  - apply (Hempty "i"). reflexivity.
Defined.

End ParseRegexFacts.

(** ** Sorting an array of strings *)

Section SortFacts.

Local Abbreviation leS := JSArray.leS.

Lemma N_compare_cases (x y : N) :
  (N.compare x y = Eq /\ x = y) \/
  (N.compare x y = Lt /\ (x < y)%N) \/
  (N.compare x y = Gt /\ (y < x)%N).
Proof.
  destruct (N.compare x y) eqn:E.
  - left. split; [reflexivity|]. now apply N.compare_eq_iff.
  - right; left. split; [reflexivity|]. now apply N.compare_lt_iff.
  - right; right. split; [reflexivity|]. now apply N.compare_gt_iff.
Qed.

Lemma compareUnits_trans_le (a b c : list N) :
  UTF16.compareUnits a b <> Gt -> UTF16.compareUnits b c <> Gt ->
  UTF16.compareUnits a c <> Gt.
Proof.
  revert b c. induction a as [|x a IH]; intros [|y b] [|z c]; simpl; auto;
    try congruence.
  destruct (N_compare_cases x y) as [[E1 H1]|[[E1 H1]|[E1 H1]]];
    destruct (N_compare_cases y z) as [[E2 H2]|[[E2 H2]|[E2 H2]]];
    destruct (N_compare_cases x z) as [[E3 H3]|[[E3 H3]|[E3 H3]]];
    rewrite E1, E2, E3; subst; auto; try congruence; try lia.
  apply IH.
Qed.

Lemma compareUnits_antisym (a b : list N) :
  UTF16.compareUnits a b = CompOpp (UTF16.compareUnits b a).
Proof.
  revert b. induction a as [|x a IH]; intros [|y b]; simpl; auto.
  rewrite (N.compare_antisym y x).
  destruct (N.compare y x); simpl; auto.
Qed.

Lemma leb_iff (a b : string) :
  UTF16.leb a b = true
  <-> UTF16.compareUnits (UTF16.codeUnits a) (UTF16.codeUnits b) <> Gt.
Proof.
  unfold UTF16.leb.
  destruct (UTF16.compareUnits _ _); split; congruence.
Qed.

Lemma leS_trans (a b c : string) : leS a b -> leS b c -> leS a c.
Proof.
  unfold JSArray.leS. rewrite !leb_iff. apply compareUnits_trans_le.
Qed.

Lemma leS_total (a b : string) : leS a b \/ leS b a.
Proof.
  unfold JSArray.leS. rewrite !leb_iff.
  rewrite (compareUnits_antisym (UTF16.codeUnits b) (UTF16.codeUnits a)).
  destruct (UTF16.compareUnits _ _); simpl; [left|left|right]; congruence.
Qed.

Lemma leS_refl (a : string) : leS a a.
Proof. destruct (leS_total a a); assumption. Qed.

Lemma startByte_progress (b : N) :
  fst (fst (UTF16.startByte b)) = [] -> snd (UTF16.startByte b) <> 0%nat.
Proof.
  unfold UTF16.startByte.
  repeat match goal with
         | |- context [if ?c then _ else _] => destruct c
         end; simpl; congruence.
Qed.

Lemma unitsOfCodePoint_nonempty (cp : N) : UTF16.unitsOfCodePoint cp <> [].
Proof.
  unfold UTF16.unitsOfCodePoint. destruct (cp <? 65536)%N; discriminate.
Qed.

(** Only the empty text has no code units. *)
Lemma decodeFrom_nil (s : string) (acc : N) (need : nat) :
  UTF16.decodeFrom s acc need = [] -> s = "" /\ need = 0%nat.
Proof.
  revert acc need. induction s as [|c rest IH]; intros acc need; simpl.
  - destruct need; [auto | discriminate].
  - destruct need as [|need'].
    + pose proof (startByte_progress (N_of_ascii c)) as Hp.
      destruct (UTF16.startByte (N_of_ascii c)) as [[out acc'] need'].
      simpl in Hp. intros H. apply app_eq_nil in H. destruct H as [Ho Hd].
      apply IH in Hd. destruct Hd as [_ Hn]. now elim (Hp Ho).
    + destruct ((128 <=? N_of_ascii c) && (N_of_ascii c <? 192))%N.
      * destruct need' as [|n].
        -- intros H. apply app_eq_nil in H. destruct H as [Hu _].
           now elim (unitsOfCodePoint_nonempty _ Hu).
        -- intros H. apply IH in H. destruct H as [_ Hn]. discriminate.
      * destruct (UTF16.startByte (N_of_ascii c)) as [[out acc'] need''].
        discriminate.
Qed.

Lemma leS_empty_only (k : string) : leS k "" -> k = "".
Proof.
  unfold JSArray.leS. rewrite leb_iff. change (UTF16.codeUnits "") with (@nil N).
  destruct (UTF16.codeUnits k) as [|x units] eqn:Hk.
  - intros _. now apply (decodeFrom_nil k 0%N 0%nat).
  - simpl. congruence.
Qed.

Lemma insertSorted_perm (x : string) (arr : list string) :
  Permutation (x :: arr) (JSArray.insertSorted x arr).
Proof.
  induction arr as [|y rest IH]; simpl; [reflexivity|].
  destruct (UTF16.leb x y); [reflexivity|].
  rewrite perm_swap. now apply perm_skip.
Qed.

Lemma sort_perm (arr : list string) : Permutation arr (JSArray.sort arr).
Proof.
  induction arr as [|x rest IH]; simpl; [reflexivity|].
  rewrite <- insertSorted_perm. now apply perm_skip.
Qed.

Lemma sort_In (arr : list string) (x : string) :
  In x (JSArray.sort arr) <-> In x arr.
Proof.
  split; apply Permutation_in; [symmetry|]; apply sort_perm.
Qed.

Lemma insertSorted_sorted (x : string) (arr : list string) :
  Sorted leS arr -> Sorted leS (JSArray.insertSorted x arr).
Proof.
  induction arr as [|y rest IH]; simpl; intros Hs.
  - repeat constructor.
  - destruct (UTF16.leb x y) eqn:E.
    + constructor; [exact Hs|]. constructor. exact E.
    + inversion Hs as [|? ? Hrest Hhd]; subst.
      constructor; [now apply IH|].
      assert (Hyx : leS y x).
      { destruct (leS_total x y) as [H|H];
          [unfold JSArray.leS in H; congruence | exact H]. }
      destruct rest as [|z rest]; simpl.
      * now constructor.
      * destruct (UTF16.leb x z); constructor; auto.
        now inversion Hhd.
Qed.

Lemma sort_sorted (arr : list string) : Sorted leS (JSArray.sort arr).
Proof.
  induction arr as [|x rest IH]; simpl; [constructor|].
  now apply insertSorted_sorted.
Qed.

Lemma last_In (arr : list string) (x : string) :
  JSArray.last arr = Some x -> In x arr.
Proof.
  induction arr as [|y [|z rest] IH]; simpl; intros H.
  - discriminate.
  - left. congruence.
  - right. now apply IH.
Qed.

Lemma last_nonempty (arr : list string) :
  arr <> [] -> exists x, JSArray.last arr = Some x.
Proof.
  induction arr as [|y [|z rest] IH]; intros H.
  - now elim H.
  - now exists y.
  - apply IH. discriminate.
Qed.

(** The last element of a sorted array is above all its elements. *)
Lemma last_of_sorted_is_greatest (arr : list string) (x : string) :
  Sorted leS arr -> JSArray.last arr = Some x ->
  forall y, In y arr -> leS y x.
Proof.
  intros Hs. apply Sorted_StronglySorted in Hs; [|exact leS_trans].
  induction Hs as [|a rest Hrest IH Hall]; intros Hl y Hy; [destruct Hy|].
  destruct rest as [|b rest'].
  - simpl in Hl. inversion Hl; subst. destruct Hy as [->|[]]. apply leS_refl.
  - change (JSArray.last (a :: b :: rest')) with (JSArray.last (b :: rest')) in Hl.
    destruct Hy as [->|Hy].
    + rewrite Forall_forall in Hall. apply Hall. now apply last_In.
    + now apply IH.
Qed.

End SortFacts.

(** ** The vault routes *)

Module VaultRoutesFacts.
Import Results Obsidian VaultRoutes.

Lemma includes_In (arr : list string) (x : string) :
  JS.includes arr x = true <-> In x arr.
Proof.
  unfold JS.includes. rewrite existsb_exists. split.
  - intros (y & Hy & He). apply String.eqb_eq in He. now subst.
  - intros H. exists x. split; [exact H | apply String.eqb_refl].
Qed.

(** X15. [handleListFilesExceptNotes] always succeeds; it lists, in ascending
    order, exactly the paths of the vault's files that are not the path of a
    markdown note. *)
Theorem handleListFilesExceptNotes_lists_the_other_files (env : VaultEnv) :
  exists paths,
    handleListFilesExceptNotes env = Success paths /\
    Sorted JSArray.leS paths /\
    forall p,
      In p paths <->
      In p (List.map Obsidian.path (getFiles env)) /\
      ~ In p (List.map Obsidian.path (getMarkdownFiles env)).
Proof.
  eexists. split; [reflexivity|]. split; [apply sort_sorted|].
  intros p. rewrite sort_In, filter_In, negb_true_iff.
  rewrite <- includes_In with (arr := List.map Obsidian.path (getMarkdownFiles env)).
  split; intros [H1 H2]; split; auto.
  - now rewrite H2.
  - now destruct (JS.includes _ p).
Qed.

(** X16. [handleListFiles] always succeeds with the paths of all files, each as
    often as the vault lists it, in ascending order. *)
Theorem handleListFiles_sorted_paths (env : VaultEnv) :
  exists paths,
    handleListFiles env = Success paths /\
    Sorted JSArray.leS paths /\
    Permutation (List.map Obsidian.path (getFiles env)) paths.
Proof.
  eexists. split; [reflexivity|]. split; [apply sort_sorted | apply sort_perm].
Qed.

(** X17. [handleListFolders] always succeeds; it lists one path for each folder
    of the file map and none for a file, every listed path ends in a slash,
    a folder path that has its slash is listed as it is and any other with
    one slash added, and the list is in ascending order. *)
Theorem handleListFolders_paths_end_in_slash (env : VaultEnv) :
  exists paths,
    handleListFolders env = Success paths /\
    Sorted JSArray.leS paths /\
    List.length paths = List.length (List.filter isTFolder (getFileMap env)) /\
    (forall p, In p paths -> JSMore.endsWith p "/" = true) /\
    (forall p, In p paths <->
       exists q, In (AFolder q) (getFileMap env) /\
                 p = if JSMore.endsWith q "/" then q else (q ++ "/")%string).
Proof.
  eexists. split; [reflexivity|]. split; [apply sort_sorted|].
  split; [|split].
  - rewrite <- (Permutation_length (sort_perm _)). apply length_map.
  - intros p Hp. apply sort_In, in_map_iff in Hp.
    destruct Hp as (t & <- & _).
    destruct (JSMore.endsWith (abstractPath t) "/") eqn:E; [exact E|].
    apply endsWith_app.
  - intros p. rewrite sort_In, in_map_iff. split.
    + intros (t & <- & Ht). apply filter_In in Ht. destruct Ht as [Hin Hf].
      destruct t as [q|q]; [discriminate|]. now exists q.
    + intros (q & Hq & ->). exists (AFolder q). split; [reflexivity|].
      apply filter_In. now split.
Qed.

Lemma substring_app_ge (a r : string) (n : nat) :
  (String.length a <= n)%nat ->
  String.substring 0 n (a ++ r)
  = (a ++ String.substring 0 (n - String.length a) r)%string.
Proof.
  revert n. induction a as [|c a IH]; intros n Hn; simpl in *.
  - now rewrite Nat.sub_0_r.
  - destruct n as [|n]; [lia|]. simpl. f_equal. apply IH. lia.
Qed.

Lemma removeAtEnd_keeps_prefix (b rest : string) :
  rest <> "" ->
  JS.startsWith (JSMore.removeAtEnd (b ++ rest) "/") b = true.
Proof.
  intros Hr. unfold JSMore.removeAtEnd.
  destruct (JSMore.endsWith (b ++ rest) "/"); [|apply startsWith_app].
  unfold JS.slice. rewrite !clampIndex_nonneg by lia.
  rewrite Nat2Z.id, string_length_append. simpl String.length.
  assert (Hl : (1 <= String.length rest)%nat)
    by (destruct rest; [now elim Hr | simpl; lia]).
  replace (Nat.min (String.length b + String.length rest - 1)
             (String.length b + String.length rest)
           - Nat.min (Z.to_nat 0) (String.length b + String.length rest))%nat
    with (String.length b + String.length rest - 1)%nat by lia.
  replace (Nat.min (Z.to_nat 0) (String.length b + String.length rest))
    with 0%nat by lia.
  rewrite substring_app_ge by lia. apply startsWith_app.
Qed.

(** X18. [handleInfo] fails with code 412 exactly when the vault's config or
    its base path is missing (or the base path is empty). Otherwise it
    returns the base path as it is, and both folder paths begin with the
    base path; the new-file folder is the base path itself unless new files
    go to a set folder. *)
Theorem handleInfo_paths_under_basePath
  (vault_internals_not_found : string) (env : VaultEnv) :
  ((config env = None \/ JS.truthyValue (basePath env) = None) ->
   handleInfo vault_internals_not_found env
   = Failure 412 vault_internals_not_found) /\
  (forall cfg base,
     config env = Some cfg -> basePath env = Some base -> base <> "" ->
     exists info,
       handleInfo vault_internals_not_found env = Success info /\
       info_basePath info = base /\
       JS.startsWith (info_attachmentFolderPath info) base = true /\
       JS.startsWith (info_newFileFolderPath info) base = true /\
       (newFileLocation cfg <> Some "folder" ->
        info_newFileFolderPath info = base)).
Proof.
  unfold handleInfo. split.
  - intros [H|H]; rewrite H; [reflexivity|]. now destruct (config env).
  - intros cfg base Hc Hb Hne. rewrite Hc, Hb.
    rewrite (@MainFacts.truthyValue_Some base Hne).
    eexists. split; [reflexivity|]. simpl.
    split; [reflexivity|]. split; [|split].
    + apply removeAtEnd_keeps_prefix. discriminate.
    + destruct (newFileLocation cfg) as [l|]; [destruct (l =? "folder")%string|].
      * apply removeAtEnd_keeps_prefix. discriminate.
      * rewrite <- (string_append_empty_r base) at 1. apply startsWith_app.
      * rewrite <- (string_append_empty_r base) at 1. apply startsWith_app.
    + intros Hl. destruct (newFileLocation cfg) as [l|]; [|reflexivity].
      destruct (String.eqb_spec l "folder"); [subst; now elim Hl | reflexivity].
Qed.

Lemma handleInfo_paths_under_basePath_witness :
  handleInfo "Vault internals not found"
    {| config := Some {| attachmentFolderPath := Some "assets/";
                         newFileLocation := Some "folder";
                         newFileFolderPath := Some "inbox" |};
       basePath := Some "/home/me/vault";
       getFiles := [];
       getMarkdownFiles := [];
       getFileMap := [] |}
  = Success {| info_basePath := "/home/me/vault";
               info_attachmentFolderPath := "/home/me/vault/assets";
               info_newFileFolderPath := "/home/me/vault/inbox" |} /\
  handleInfo "Vault internals not found"
    {| config := None;
       basePath := Some "/home/me/vault";
       getFiles := [];
       getMarkdownFiles := [];
       getFileMap := [] |}
  = Failure 412 "Vault internals not found".
Proof.
  split; [reflexivity|].
  apply (proj1 (handleInfo_paths_under_basePath "Vault internals not found"
                  {| config := None;
                     basePath := Some "/home/me/vault";
                     getFiles := [];
                     getMarkdownFiles := [];
                     getFileMap := [] |})).
  left. reflexivity.
Defined.

End VaultRoutesFacts.

(** ** Periodic notes *)

Module PeriodicNotesFacts.
Import Results PeriodicNoteTypes Constants Obsidian PeriodicNotesHandling.
Import PeriodicNotesMore.

(** X13. The lookup of the current periodic note agrees with the two smaller
    functions of the file: it fails with [FeatureUnavailable] when
    [appHasPeriodPluginLoaded] is false, else it succeeds with the path of
    [getCurrentPeriodNote], or fails with [NotFound] when there is none. So
    it succeeds with a path exactly when the plugin is loaded and the current
    note has that path. *)
Theorem periodic_lookup_by_cases
  (ErrorCode : ErrorCodeEnum) (STRINGS : StringsTable)
  (dni : DailyNotesInterface) (t : PeriodicNoteType) :
  getExistingPeriodNotePathIfPluginIsAvailable ErrorCode STRINGS dni t
  = (if negb (appHasPeriodPluginLoaded dni t)
     then failure (FeatureUnavailable ErrorCode) (feature_not_available STRINGS t)
     else match getCurrentPeriodNote dni t with
          | Some pNote => success (Obsidian.path pNote)
          | None => failure (NotFound ErrorCode) (note_not_found STRINGS)
          end) /\
  forall p,
    getExistingPeriodNotePathIfPluginIsAvailable ErrorCode STRINGS dni t
    = Success p
    <-> appHasPeriodPluginLoaded dni t = true /\
        exists pNote,
          getCurrentPeriodNote dni t = Some pNote /\ Obsidian.path pNote = p.
Proof.
  assert (Heq :
    getExistingPeriodNotePathIfPluginIsAvailable ErrorCode STRINGS dni t
    = (if negb (appHasPeriodPluginLoaded dni t)
       then failure (FeatureUnavailable ErrorCode) (feature_not_available STRINGS t)
       else match getCurrentPeriodNote dni t with
            | Some pNote => success (Obsidian.path pNote)
            | None => failure (NotFound ErrorCode) (note_not_found STRINGS)
            end)).
  { unfold getExistingPeriodNotePathIfPluginIsAvailable,
      appHasPeriodPluginLoaded, getCurrentPeriodNote.
    destruct t; reflexivity. }
  split; [exact Heq|].
  intros p. rewrite Heq. unfold success, failure.
  destruct (appHasPeriodPluginLoaded dni t); simpl.
  - destruct (getCurrentPeriodNote dni t) as [pNote|].
    + split.
      * intros H. injection H as <-. split; [reflexivity|]. now exists pNote.
      * intros (_ & n & Hn & <-). now injection Hn as ->.
    + split; [discriminate|]. intros (_ & n & Hn & _). discriminate.
  - split; [discriminate|]. intros [H _]. discriminate.
Qed.

Lemma truthyValue_inv (o : option string) (x : string) :
  JS.truthyValue o = Some x -> o = Some x /\ x <> "".
Proof.
  destruct o as [s|]; simpl; [|discriminate].
  destruct s; simpl; [discriminate|].
  intros H. injection H as <-. split; [reflexivity | discriminate].
Qed.

Lemma noteUnderKey_of_key (notes : list (string * TFile)) (key : string) :
  In key (List.map fst notes) ->
  exists pNote, noteUnderKey notes key = Some pNote /\ In (key, pNote) notes.
Proof.
  induction notes as [|[k n] rest IH]; simpl; [intros []|].
  intros H. destruct (String.eqb_spec k key) as [->|Hne].
  - exists n. auto.
  - destruct H as [H|H]; [now elim Hne|].
    destruct (IH H) as (pNote & Hp & Hin). exists pNote. auto.
Qed.

(** X14. [getMostRecentPeriodNote] never runs into an [undefined] note. When the
    plugin is not loaded it fails with [FeatureUnavailable]; when there is no
    note (no key that is not empty) it fails with code 404; otherwise it asks
    [getNote] for the path of the note stored under the greatest key. *)
Theorem getMostRecentPeriodNote_takes_greatest_key
  (ErrorCode : ErrorCodeEnum) (STRINGS : StringsTable)
  (dni : DailyNotesInterface) (ani : AllNotesInterface)
  (getNote : string -> ResultObject TFile) (t : PeriodicNoteType) :
  let notes := getAllPeriodNotes ani t in
  let result := getMostRecentPeriodNote ErrorCode STRINGS dni ani getNote t in
  result <> None /\
  (appHasPeriodPluginLoaded dni t = false ->
   result = Some (Failure (FeatureUnavailable ErrorCode)
                    (feature_not_available STRINGS t))) /\
  (appHasPeriodPluginLoaded dni t = true ->
   (forall k, In k (List.map fst notes) -> k = "") ->
   result = Some (Failure 404 (note_not_found STRINGS))) /\
  (appHasPeriodPluginLoaded dni t = true ->
   (exists k, In k (List.map fst notes) /\ k <> "") ->
   exists key pNote,
     In (key, pNote) notes /\
     noteUnderKey notes key = Some pNote /\
     (forall k, In k (List.map fst notes) -> JSArray.leS k key) /\
     result = Some (getNote (Obsidian.path pNote))).
Proof.
  cbv zeta. unfold getMostRecentPeriodNote.
  set (notes := getAllPeriodNotes ani t).
  set (keys := List.map fst notes).
  destruct (appHasPeriodPluginLoaded dni t); simpl.
  2: { split; [discriminate|]. split; [reflexivity|].
       split; intros H; discriminate. }
  destruct (JS.truthyValue (JSArray.last (JSArray.sort keys))) as [key|] eqn:Hk.
  - apply truthyValue_inv in Hk. destruct Hk as [Hlast Hne].
    pose proof (last_In _ Hlast) as Hin. apply (proj1 (sort_In _ _)) in Hin.
    destruct (noteUnderKey_of_key notes key Hin) as (pNote & Hp & Hmem).
    rewrite Hp. split; [discriminate|]. split; [discriminate|]. split.
    + intros _ Hall. now elim Hne; apply Hall.
    + intros _ _. exists key, pNote. repeat split; auto.
      intros k Hkin.
      apply (last_of_sorted_is_greatest (sort_sorted keys) Hlast).
      now apply (proj2 (sort_In _ _)).
  - split; [discriminate|]. split; [discriminate|]. split; [reflexivity|].
    intros _ (k & Hkin & Hkne). exfalso.
    destruct (JSArray.last (JSArray.sort keys)) as [m|] eqn:Hlast.
    + assert (Hm : m = "").
      { destruct m; [reflexivity | discriminate]. }
      subst m. apply Hkne, leS_empty_only.
      apply (last_of_sorted_is_greatest (sort_sorted keys) Hlast).
      now apply (proj2 (sort_In _ _)).
    + destruct (@last_nonempty (JSArray.sort keys)) as (x & Hx).
      * intros Hnil. apply (proj2 (sort_In _ _)) in Hkin.
        now rewrite Hnil in Hkin.
      * congruence.
Qed.

End PeriodicNotesFacts.

Module PeriodicNotesWitnesses.
Import Results PeriodicNoteTypes Constants Obsidian PeriodicNotesHandling.
Import PeriodicNotesMore PeriodicNotesFacts Samples PeriodicSamples.

Example most_recent_daily_note :
  getMostRecentPeriodNote sampleErrorCode sampleStrings dailyAndWeeklyLoaded
    threeDailyNotes everyNoteThere DailyNote
  = Some (Success {| Obsidian.path := "daily/2024-01-10.md" |}).
Proof. reflexivity. Qed.

Lemma getMostRecentPeriodNote_takes_greatest_key_witness :
  (exists key pNote,
     In (key, pNote) (getAllDailyNotes threeDailyNotes) /\
     noteUnderKey (getAllDailyNotes threeDailyNotes) key = Some pNote /\
     (forall k, In k (List.map fst (getAllDailyNotes threeDailyNotes)) ->
                JSArray.leS k key) /\
     getMostRecentPeriodNote sampleErrorCode sampleStrings dailyAndWeeklyLoaded
       threeDailyNotes everyNoteThere DailyNote
     = Some (everyNoteThere (Obsidian.path pNote))) /\
  getMostRecentPeriodNote sampleErrorCode sampleStrings dailyAndWeeklyLoaded
    threeDailyNotes everyNoteThere WeeklyNote
  = Some (Failure 404 "note not found") /\
  getMostRecentPeriodNote sampleErrorCode sampleStrings dailyAndWeeklyLoaded
    threeDailyNotes everyNoteThere MonthlyNote
  = Some (Failure 424 "monthly notes are not enabled").
Proof.
  split; [|split].
  - apply (proj2 (proj2 (proj2
      (getMostRecentPeriodNote_takes_greatest_key sampleErrorCode sampleStrings
         dailyAndWeeklyLoaded threeDailyNotes everyNoteThere DailyNote)))).
    + reflexivity.
    + exists "day-2024-01-09". split; [now left | discriminate].
  - apply (proj1 (proj2 (proj2
      (getMostRecentPeriodNote_takes_greatest_key sampleErrorCode sampleStrings
         dailyAndWeeklyLoaded threeDailyNotes everyNoteThere WeeklyNote)))).
    + reflexivity.
    + intros k [].
  - apply (proj1 (proj2
      (getMostRecentPeriodNote_takes_greatest_key sampleErrorCode sampleStrings
         dailyAndWeeklyLoaded threeDailyNotes everyNoteThere MonthlyNote))).
    reflexivity.
Defined.

End PeriodicNotesWitnesses.

(** ** Note targeting, continued *)

Module ParametersMoreFacts.
Import Results PeriodicNoteTypes Constants Obsidian PeriodicNotesHandling Parameters.
Import TargetingKeys Samples ParametersFacts.

(** X7. With [file] as the one targeting key the resolved path is the value of
    [file] as it stands: neither the metadata index nor the markdown files
    nor the periodic notes are asked. The soft resolution always succeeds;
    the hard one succeeds exactly when the value is not empty and names an
    existing note. An empty value passes the key count but selects no key
    ([inputKey] is empty). *)
Theorem file_targeting_is_verbatim
  (ErrorCode : ErrorCodeEnum) (STRINGS : StringsTable)
  (env : Env) (dni : DailyNotesInterface)
  (data : NoteTargetingParams) (f : string) (ctx : Zod.RefinementCtx)
  (Hfile : file data = Some f) (Huid : uid data = None)
  (Hpn : periodic_note data = None) :
  let found := negb (f =? "")%string && zodExistingNotePath env f in
  let resolved :=
    {| data := data;
       _computed := {| inputKey := if JS.truthyStr f then "file" else "";
                       path := f;
                       pathExists := found |} |} in
  softValidateNoteTargetingAndResolvePath ErrorCode STRINGS env dni data ctx
  = (Some resolved, ctx) /\
  hardValidateNoteTargetingAndResolvePath ErrorCode STRINGS env dni data ctx
  = if found then (Some resolved, ctx)
    else (None, Zod.addIssue Zod.custom (note_not_found STRINGS) ctx).
Proof.
  cbv zeta.
  unfold softValidateNoteTargetingAndResolvePath,
    hardValidateNoteTargetingAndResolvePath,
    validateNoteTargetingAndResolvePath.
  rewrite keysCount_keysPresent. unfold keysPresent.
  rewrite Hfile, Huid, Hpn. simpl.
  destruct f as [|c f]; simpl.
  - split; reflexivity.
  - destruct (zodExistingNotePath env (String c f)); split; reflexivity.
Qed.

Lemma file_targeting_is_verbatim_witness :
  let data := {| file := Some "x.md"; uid := None; periodic_note := None |} in
  hardValidateNoteTargetingAndResolvePath sampleErrorCode sampleStrings
    (vaultOf [scalarUIDNote]) noPeriodicNotes data emptyCtx
  = (Some {| data := data;
             _computed := {| inputKey := "file"; path := "x.md";
                             pathExists := true |} |},
     emptyCtx).
Proof.
  exact (proj2 (@file_targeting_is_verbatim sampleErrorCode sampleStrings
                  (vaultOf [scalarUIDNote]) noPeriodicNotes
                  {| file := Some "x.md"; uid := None; periodic_note := None |}
                  "x.md" emptyCtx eq_refl eq_refl eq_refl)).
Defined.

Lemma failed_resolution_issue
  (ErrorCode : ErrorCodeEnum) (STRINGS : StringsTable)
  (env : Env) (dni : DailyNotesInterface)
  (data : NoteTargetingParams) (ctx : Zod.RefinementCtx)
  (throwOnMissingNote : bool) :
  fst (validateNoteTargetingAndResolvePath ErrorCode STRINGS env dni data ctx
         throwOnMissingNote) = None ->
  exists msg,
    (msg = faulty_note_targeting STRINGS \/ msg = note_not_found STRINGS) /\
    snd (validateNoteTargetingAndResolvePath ErrorCode STRINGS env dni data ctx
           throwOnMissingNote)
    = Zod.addIssue Zod.custom msg ctx.
Proof.
  unfold validateNoteTargetingAndResolvePath.
  destruct (negb _); simpl; [eauto|].
  match goal with
  | |- context [let '(_, _) := ?e in _] => destruct e as [k p]
  end.
  destruct (negb _ && throwOnMissingNote); simpl; [eauto | discriminate].
Qed.

(** X8. What a resolution leaves behind. When it returns computed values, the
    context has no new issue, the input is handed back as it came, exactly
    one targeting key was in it, [pathExists] holds exactly when the path is
    not empty and names an existing note, an empty [inputKey] goes with an
    empty path, and in hard mode the path exists. When it returns nothing,
    exactly one issue was added: a custom one at the context's path, with the
    faulty-targeting or the note-not-found message. *)
Theorem resolution_outcomes
  (ErrorCode : ErrorCodeEnum) (STRINGS : StringsTable)
  (env : Env) (dni : DailyNotesInterface)
  (data : NoteTargetingParams) (ctx : Zod.RefinementCtx)
  (throwOnMissingNote : bool) :
  match validateNoteTargetingAndResolvePath ErrorCode STRINGS env dni data ctx
          throwOnMissingNote with
  | (Some r, ctx') =>
      ctx' = ctx /\
      Parameters.data r = data /\
      keysPresent data = 1%nat /\
      (pathExists (_computed r) = true <->
       path (_computed r) <> "" /\
       zodExistingNotePath env (path (_computed r)) = true) /\
      (inputKey (_computed r) = "" -> path (_computed r) = "") /\
      (throwOnMissingNote = true -> pathExists (_computed r) = true)
  | (None, ctx') =>
      Zod.ctxPath ctx' = Zod.ctxPath ctx /\
      exists msg,
        Zod.issues ctx'
        = (Zod.issues ctx
           ++ [{| Zod.code := Zod.custom;
                  Zod.path := Zod.ctxPath ctx;
                  Zod.message := msg |}])%list /\
        ((msg = faulty_note_targeting STRINGS /\ keysPresent data <> 1%nat) \/
         (msg = note_not_found STRINGS /\ keysPresent data = 1%nat /\
          throwOnMissingNote = true))
  end.
Proof.
  unfold validateNoteTargetingAndResolvePath.
  rewrite keysCount_keysPresent.
  destruct (Nat.eqb_spec (keysPresent data) 1) as [Hone|Hne]; simpl.
  2: { split; [reflexivity|]. eexists. split; [reflexivity|]. now left. }
  match goal with
  | |- context [let '(_, _) := ?e in _] =>
      assert (Hkey : fst e = "" -> snd e = ""); [|destruct e as [k p]]
  end.
  { destruct (JS.truthyValue (file data)); [discriminate|].
    destruct (JS.truthyValue (uid data)); [discriminate|].
    destruct (periodic_note data); [discriminate | reflexivity]. }
  simpl in Hkey.
  destruct (String.eqb_spec p "") as [Hp|Hp]; simpl.
  - destruct throwOnMissingNote; simpl.
    + split; [reflexivity|]. eexists. split; [reflexivity|]. now right.
    + repeat split; auto; try discriminate. intros [H _]. now elim H.
  - destruct (zodExistingNotePath env p) eqn:Hex; simpl.
    + repeat split; auto.
    + destruct throwOnMissingNote; simpl.
      * split; [reflexivity|]. eexists. split; [reflexivity|]. now right.
      * repeat split; auto; try discriminate. intros [_ H]. congruence.
Qed.

(** X9. Hard and soft resolution differ only on a missing note: whatever the
    hard one returns the soft one returns too; a soft result whose path
    exists is the hard result as well; and the soft resolution returns
    nothing only for faulty targeting, never for a missing note. *)
Theorem hard_and_soft_resolution
  (ErrorCode : ErrorCodeEnum) (STRINGS : StringsTable)
  (env : Env) (dni : DailyNotesInterface)
  (data : NoteTargetingParams) (ctx : Zod.RefinementCtx) :
  let soft :=
    softValidateNoteTargetingAndResolvePath ErrorCode STRINGS env dni data ctx in
  let hard :=
    hardValidateNoteTargetingAndResolvePath ErrorCode STRINGS env dni data ctx in
  (forall r, fst hard = Some r -> soft = hard) /\
  (forall r, fst soft = Some r -> pathExists (_computed r) = true -> hard = soft) /\
  (fst soft = None <-> keysPresent data <> 1%nat).
Proof.
  cbv zeta.
  unfold softValidateNoteTargetingAndResolvePath,
    hardValidateNoteTargetingAndResolvePath,
    validateNoteTargetingAndResolvePath.
  rewrite keysCount_keysPresent.
  destruct (Nat.eqb_spec (keysPresent data) 1) as [Hone|Hne]; simpl.
  2: { repeat split; auto; discriminate. }
  match goal with
  | |- context [let '(_, _) := ?e in _] => destruct e as [k p]
  end.
  rewrite !andb_false_r, !andb_true_r.
  destruct (negb (negb (p =? "")%string && zodExistingNotePath env p)) eqn:E;
    simpl.
  - split; [discriminate|]. split.
    + intros r Hr Hex. injection Hr as <-. simpl in Hex.
      rewrite Hex in E. discriminate.
    + split; [discriminate | intros H; now elim H].
  - repeat split; auto; try discriminate. intros H; now elim H.
Qed.

End ParametersMoreFacts.

(** ** Looking a uid up, continued *)

Module UIDLookupFacts.
Import Results Constants Obsidian Parameters TargetingKeys.
Import PeriodicNotesFacts.


Lemma metadataCache_search_in_fileCache (env : Env) (u p : string) :
  findPathForUIDInMetadataCache env u = Some p ->
  In p (List.map fst (fileCache env)).
Proof.
  unfold findPathForUIDInMetadataCache.
  destruct (List.find _ (fileCache env)) as [[q fileEntry]|] eqn:Hf;
    simpl; [|discriminate].
  intros H. injection H as <-.
  apply find_some in Hf. apply in_map_iff. now exists (q, fileEntry).
Qed.



(** X11. What [filepathForUID] can return: a success carries a path that is not
    empty and is either a key of the file cache or the path of a markdown
    file that passes the scan's test; a failure always has code 404 and the
    note-not-found message. *)
Theorem filepathForUID_results
  (STRINGS : StringsTable) (env : Env) (u : string) :
  match filepathForUID STRINGS env u with
  | Success p =>
      p <> "" /\
      (In p (List.map fst (fileCache env)) \/
       exists note,
         In note (getMarkdownFiles env) /\
         Obsidian.path note = p /\
         noteUIDMatches env u note = true)
  | Failure code msg => code = 404 /\ msg = note_not_found STRINGS
  end.
Proof.
  unfold filepathForUID.
  destruct (JS.truthyValue (findPathForUIDInMetadataCache env u)) as [p|] eqn:Hi.
  - simpl. apply truthyValue_inv in Hi. destruct Hi as [Hi Hne].
    destruct p as [|c p]; [now elim Hne|]. simpl.
    split; [exact Hne|]. left.
    now apply (metadataCache_search_in_fileCache env u).
  - destruct (JS.truthyValue (findPathForUIDInMarkdownFiles env u)) as [p|] eqn:Hs;
      simpl; [|now split].
    apply truthyValue_inv in Hs. destruct Hs as [Hs Hne].
    split; [exact Hne|]. right.
    unfold findPathForUIDInMarkdownFiles in Hs.
    destruct (List.find (noteUIDMatches env u) (getMarkdownFiles env))
      as [note|] eqn:Hf; [|discriminate].
    simpl in Hs. injection Hs as <-.
    apply find_some in Hf. destruct Hf as [Hin Hm]. now exists note.
Qed.

End UIDLookupFacts.

(** ** The call pipeline, continued *)

Module MainMoreFacts.
Import Results Main Samples MainFacts.

Section FailedCalls.

Variable World : Type.
Variable helpers : Helpers World.

(** X19. When the handler fails, the pipeline still runs to its end: the error
    callback is sent if [x-error] is set (and nothing is sent otherwise,
    whatever [x-success] is), the note is never opened, whatever [silent]
    and the other parameters are, and the call is logged. *)
Theorem failed_call_reports_and_never_opens
  (handlerFunc : HandlerFunction World) (params : AnyParams) (st : State World)
  (code : Z) (msg : string) (w1 : World)
  (Hfails : handlerFunc params (world st) = (HandlerFailure code msg, w1)) :
  let hr := HandlerFailure code msg in
  let st1 := {| world := w1;
                trace := trace st ++ [EvHandlerCalled params; EvHandlerResolved hr] |} in
  let out := handleIncomingCall helpers handlerFunc params st in
  handlerResult (fst out) = hr /\
  openResult (fst out) = Success "No file to open, the handler failed" /\
  match JS.truthyValue (x_error params) with
  | Some url =>
      sendCallbackResult (fst out) = fst (sent helpers url hr params st1) /\
      world (snd out) = world (snd (sent helpers url hr params st1)) /\
      trace (snd out)
      = (trace st
         ++ [EvHandlerCalled params;
             EvHandlerResolved hr;
             EvSendUrlCallback url hr params;
             EvLogToConsole "Call handled:" (LogProcessingResult (fst out))])%list
  | None =>
      sendCallbackResult (fst out)
      = Success "No `x-error` callback URL provided" /\
      world (snd out) = w1 /\
      trace (snd out)
      = (trace st
         ++ [EvHandlerCalled params;
             EvHandlerResolved hr;
             EvLogToConsole "Call handled:" (LogProcessingResult (fst out))])%list
  end.
Proof.
  cbv zeta. rewrite handleIncomingCall_steps. rewrite Hfails. simpl.
  unfold sendUrlCallbackIfNeeded, sent. simpl.
  destruct (JS.truthyValue (x_error params)) as [url|].
  - rewrite call_eq. simpl. repeat split. now rewrite <- !app_assoc.
  - simpl. repeat split. now rewrite <- !app_assoc.
Qed.

End FailedCalls.

Lemma failed_call_reports_and_never_opens_witness :
  let hr := HandlerFailure 404 "Note not found" in
  let out :=
    handleIncomingCall sampleHelpers (fun _ w => (hr, w)) sampleParams freshState in
  openResult (fst out) = Success "No file to open, the handler failed" /\
  calledUrls (world (snd out)) = ["app://failed"] /\
  focusedNotes (world (snd out)) = [].
Proof.
  pose proof (@failed_call_reports_and_never_opens _ sampleHelpers
                (fun _ w => (HandlerFailure 404 "Note not found", w))
                sampleParams freshState 404 "Note not found" freshWorld eq_refl)
    as (_ & Hopen & _ & Hworld & _).
  cbv zeta. split; [exact Hopen|]. now rewrite Hworld.
Defined.

(** X20. What the user is shown when note targeting fails: a resolution that
    starts from an empty context at the root of the parameters and returns
    nothing leaves issues that [handleParseError] prints as the heading and
    one line with an empty field path, ["- : "] and the message. *)
Theorem targeting_failure_message
  (ErrorCode : ErrorCodeEnum) (STRINGS : Constants.StringsTable)
  (env : Obsidian.Env) (dni : Obsidian.DailyNotesInterface)
  (data : Parameters.NoteTargetingParams) (throwOnMissingNote : bool) :
  let outcome :=
    Parameters.validateNoteTargetingAndResolvePath ErrorCode STRINGS env dni
      data {| Zod.ctxPath := []; Zod.issues := [] |} throwOnMissingNote in
  fst outcome = None ->
  exists msg,
    (msg = Constants.faulty_note_targeting STRINGS \/
     msg = Constants.note_not_found STRINGS) /\
    parseErrorMessage (Zod.issues (snd outcome))
    = ("Incoming call failed" ++ JS.LF ++ "- : " ++ msg)%string.
Proof.
  cbv zeta. intros Hnone.
  destruct (ParametersMoreFacts.failed_resolution_issue ErrorCode STRINGS env
              dni data {| Zod.ctxPath := []; Zod.issues := [] |}
              throwOnMissingNote Hnone) as (msg & Hmsg & Hctx).
  exists msg. split; [exact Hmsg|].
  rewrite Hctx. reflexivity.
Qed.

Lemma targeting_failure_message_witness :
  exists msg,
    (msg = "faulty note targeting" \/ msg = "note not found") /\
    parseErrorMessage
      (Zod.issues
         (snd (Parameters.validateNoteTargetingAndResolvePath
                 sampleErrorCode sampleStrings emptyVault noPeriodicNotes
                 {| Parameters.file := None; Parameters.uid := None;
                    Parameters.periodic_note := None |}
                 {| Zod.ctxPath := []; Zod.issues := [] |} false)))
    = ("Incoming call failed" ++ JS.LF ++ "- : " ++ msg)%string.
Proof.
  apply (@targeting_failure_message sampleErrorCode sampleStrings emptyVault
           noPeriodicNotes
           {| Parameters.file := None; Parameters.uid := None;
              Parameters.periodic_note := None |} false).
  reflexivity.
Defined.

End MainMoreFacts.

(** ** The two versions of the steps after the handler *)

Module MainEarlierFacts.
Import Results Main.

Section TwoVersions.

Variable EarlierWorld LaterWorld : Type.
Variable earlier : MainEarlier.Helpers EarlierWorld.
Variable later : Main.Helpers LaterWorld.

(** X21. The rewrite of [main.ts] kept what the two steps do: for a handler
    result whose [input] is the call's parameters, the later
    [sendUrlCallbackIfNeeded] sends a callback exactly when the earlier one
    did, to the same URL and with the same outcome, and the later
    [openFileIfNeeded] opens a note exactly when the earlier one did, and
    the same note. *)
Theorem later_steps_act_as_the_earlier_ones
  (hr : AnyHandlerResult) (params : AnyParams)
  (st0 : MainEarlier.State EarlierWorld) (st : Main.State LaterWorld) :
  let res := {| MainEarlier.outcome := hr; MainEarlier.input := params |} in
  MainEarlier.trace st0 = [] -> Main.trace st = [] ->
  MainEarlier.callbacksSent
    (MainEarlier.trace (MainEarlier.sendUrlCallbackIfNeeded earlier res st0))
  = MainEarlier.laterCallbacksSent
      (Main.trace (snd (Main.sendUrlCallbackIfNeeded later hr params st))) /\
  MainEarlier.notesOpened
    (MainEarlier.trace (MainEarlier.openFileIfNeeded earlier res st0))
  = MainEarlier.laterNotesOpened
      (Main.trace (snd (Main.openFileIfNeeded later hr params st))).
Proof.
  cbv zeta. intros H0 H. split.
  - unfold MainEarlier.sendUrlCallbackIfNeeded, Main.sendUrlCallbackIfNeeded.
    simpl.
    unfold JS.truthyOpt, JS.truthyValue.
    destruct (x_success params) as [[|c1 u1]|], (x_error params) as [[|c2 u2]|],
      hr as [r fp|code msg]; simpl;
      rewrite ?MainFacts.call_eq; unfold MainEarlier.call; simpl;
      rewrite ?H0, ?H; reflexivity.
  - unfold MainEarlier.openFileIfNeeded, Main.openFileIfNeeded. simpl.
    destruct hr as [r fp|code msg]; simpl.
    + destruct (JS.truthy (silent params)); simpl; [now rewrite H0, H|].
      destruct (JS.truthyValue fp) as [p|]; simpl.
      * rewrite MainFacts.call_eq. unfold MainEarlier.call. simpl.
        now rewrite H0, H.
      * now rewrite H0, H.
    + now rewrite H0, H.
Qed.

End TwoVersions.

Lemma later_steps_act_as_the_earlier_ones_witness :
  let earlier :=
    {| MainEarlier.sendUrlCallback := fun url _ (w : list string) => url :: w;
       MainEarlier.focusOrOpenNote := fun p w => p :: w;
       MainEarlier.showBrandedNotice := fun _ w => w |} in
  let hr := HandlerSuccess [] (Some "a.md") in
  MainEarlier.callbacksSent
    (MainEarlier.trace
       (MainEarlier.sendUrlCallbackIfNeeded earlier
          {| MainEarlier.outcome := hr; MainEarlier.input := Samples.sampleParams |}
          {| MainEarlier.world := []; MainEarlier.trace := [] |}))
  = MainEarlier.laterCallbacksSent
      (Main.trace
         (snd (Main.sendUrlCallbackIfNeeded Samples.sampleHelpers hr
                 Samples.sampleParams Samples.freshState))).
Proof.
  exact (proj1 (@later_steps_act_as_the_earlier_ones _ _
                  {| MainEarlier.sendUrlCallback :=
                       fun url _ (w : list string) => url :: w;
                     MainEarlier.focusOrOpenNote := fun p w => p :: w;
                     MainEarlier.showBrandedNotice := fun _ w => w |}
                  Samples.sampleHelpers
                  (HandlerSuccess [] (Some "a.md")) Samples.sampleParams
                  {| MainEarlier.world := []; MainEarlier.trace := [] |}
                  Samples.freshState eq_refl eq_refl)).
Defined.

End MainEarlierFacts.

(** ** Looking a uid up: when a note is found *)

Module UIDLookupMoreFacts.
Import Results Constants Obsidian Parameters TargetingKeys Samples.

(** X12. The lookup does not miss a note the scan accepts: when no markdown file
    has an empty path and some markdown file passes the scan's test, then
    [filepathForUID] succeeds (with the path the index gives, or else with
    that of the first file that passes). *)
Theorem filepathForUID_finds_a_match
  (STRINGS : StringsTable) (env : Env) (u : string)
  (Hpaths : forall note, In note (getMarkdownFiles env) -> Obsidian.path note <> "")
  (Hmatch : exists note,
      In note (getMarkdownFiles env) /\ noteUIDMatches env u note = true) :
  exists p, filepathForUID STRINGS env u = Success p.
Proof.
  unfold filepathForUID.
  destruct (JS.truthyValue (findPathForUIDInMetadataCache env u)) as [p|] eqn:Hi.
  - apply PeriodicNotesFacts.truthyValue_inv in Hi. destruct Hi as [_ Hne].
    exists p. simpl. destruct p; [now elim Hne | reflexivity].
  - unfold findPathForUIDInMarkdownFiles.
    destruct (List.find (noteUIDMatches env u) (getMarkdownFiles env))
      as [note|] eqn:Hf.
    + apply find_some in Hf. destruct Hf as [Hin _].
      exists (Obsidian.path note). simpl.
      pose proof (Hpaths note Hin) as Hne.
      destruct (Obsidian.path note); [now elim Hne | reflexivity].
    + destruct Hmatch as (note & Hin & Hm).
      pose proof (find_none _ _ Hf note Hin) as Hno. congruence.
Qed.

Lemma filepathForUID_finds_a_match_witness :
  exists p,
    filepathForUID sampleStrings
      (withEmptyIndex (vaultOf [plainNote; scalarUIDNote])) "xyz"
    = Success p.
Proof.
  apply filepathForUID_finds_a_match.
  - intros note [<-|[<-|[]]]; discriminate.
  - exists {| Obsidian.path := "x.md" |}. split; [right; left|]; reflexivity.
Defined.

Lemma hard_and_soft_resolution_witness :
  let data := {| file := Some "x.md"; uid := None; periodic_note := None |} in
  softValidateNoteTargetingAndResolvePath sampleErrorCode sampleStrings
    (vaultOf [scalarUIDNote]) noPeriodicNotes data emptyCtx
  = hardValidateNoteTargetingAndResolvePath sampleErrorCode sampleStrings
      (vaultOf [scalarUIDNote]) noPeriodicNotes data emptyCtx.
Proof.
  cbv zeta.
  eapply (proj1 (@ParametersMoreFacts.hard_and_soft_resolution
                   sampleErrorCode sampleStrings (vaultOf [scalarUIDNote])
                   noPeriodicNotes
                   {| file := Some "x.md"; uid := None; periodic_note := None |}
                   emptyCtx)).
  reflexivity.
Defined.

End UIDLookupMoreFacts.

(** ** A uid that no note carries *)

Module UnmatchedUIDFacts.
Import Results Constants Obsidian Parameters TargetingKeys Samples.

(** C3. The code does not keep to the claim where the scan of the markdown
    files accepts a note that carries no such uid. For the uid ["a,b"] and a
    vault whose one note has the uid list [a, b], no value of the note's uid
    entry is the uid, and yet the soft and the hard resolution both return
    the note's path with [pathExists = true]; the same happens for the uid
    ["null"] and a note without a uid entry. The claim has the soft
    resolution return an empty path with [pathExists = false], and the hard
    one add the note-not-found issue. *)
Theorem unmatched_uid_is_resolved_by_the_scan :
  let listed := {| file := None; uid := Some "a,b"; periodic_note := None |} in
  let null := {| file := None; uid := Some "null"; periodic_note := None |} in
  (specUIDMatches (snd listUIDNote) "a,b" = false /\
   softValidateNoteTargetingAndResolvePath sampleErrorCode sampleStrings
     (vaultOf [listUIDNote]) noPeriodicNotes listed emptyCtx
   = (Some {| data := listed;
              _computed := {| inputKey := "uid"; path := "n.md";
                              pathExists := true |} |},
      emptyCtx) /\
   hardValidateNoteTargetingAndResolvePath sampleErrorCode sampleStrings
     (vaultOf [listUIDNote]) noPeriodicNotes listed emptyCtx
   = (Some {| data := listed;
              _computed := {| inputKey := "uid"; path := "n.md";
                              pathExists := true |} |},
      emptyCtx)) /\
  (specUIDMatches (snd plainNote) "null" = false /\
   softValidateNoteTargetingAndResolvePath sampleErrorCode sampleStrings
     (vaultOf [plainNote]) noPeriodicNotes null emptyCtx
   = (Some {| data := null;
              _computed := {| inputKey := "uid"; path := "plain.md";
                              pathExists := true |} |},
      emptyCtx) /\
   hardValidateNoteTargetingAndResolvePath sampleErrorCode sampleStrings
     (vaultOf [plainNote]) noPeriodicNotes null emptyCtx
   = (Some {| data := null;
              _computed := {| inputKey := "uid"; path := "plain.md";
                              pathExists := true |} |},
      emptyCtx)).
Proof.
  cbv zeta. repeat split.
Qed.

End UnmatchedUIDFacts.

(** ** The order of [sort()] *)

Module SortOrderFacts.
Import Obsidian VaultRoutes.

(** A character above U+FFFF sorts before one from U+E000..U+FFFF, as the
    code units have it and the bytes do not. *)
Example sort_is_by_code_units :
  JSArray.sort ["～.png"; "b.md"; "😀.png"; "a.md"]
  = ["a.md"; "b.md"; "😀.png"; "～.png"] /\
  String.leb "～.png" "😀.png" = true.
Proof. split; reflexivity. Qed.

End SortOrderFacts.
